(** * Invoice extractor: a shallow embedding of the document-to-record pipeline

    The repository holds two near-duplicate programs, [invoice_extractor.py]
    (Anthropic backend) and [invoice_extractor_groq.py] (Groq backend).  Both
    define one class [InvoiceExtractor]; the embedding follows its methods one
    by one and is parameterised by the variant where the two files differ.

    Python values are modelled as the code has them: [str] is a sequence of
    Unicode code points, a [dict] is a finite map, an XML document is the
    element tree built by [xml.etree.ElementTree], and every effect of the
    code (files, the registry request, printed lines, raised exceptions) is
    threaded through an explicit world. *)

From Stdlib Require Import String Ascii ZArith NArith Bool.
From stdpp Require Import gmap list.

Set Warnings "-register-all,-clear-no-such-hyp".
Local Open Scope N_scope.

(** ** Python strings *)

Module PyStr.

(** A character is a Unicode code point, a [str] a sequence of them. *)
Abbreviation char := N.
Abbreviation str := (list N).

(** A literal of the source text, written with ASCII characters. *)
Definition lit (s : string) : str := map N_of_ascii (list_ascii_of_string s).

(** The interpreter's Unicode database, consulted by [str.upper],
    [str.lower], [str.isdigit] and [str.strip] for code points above 127.
    Below 128 the methods are given in full here. *)
Class UnicodeDB := {
  unicode_upper : char -> str;
  unicode_lower : char -> str;
  unicode_isdigit : char -> bool;
  unicode_isspace : char -> bool
}.

(** The database restricted to ASCII text: no other character has a case,
    is a digit or is white space. *)
Definition ascii_db : UnicodeDB := {|
  unicode_upper c := [c];
  unicode_lower c := [c];
  unicode_isdigit _ := false;
  unicode_isspace _ := false
|}.


Section Methods.
Context {U : UnicodeDB}.

Definition is_ascii (c : char) : bool := c <? 128.

Definition upper_char (c : char) : str :=
  if is_ascii c
  then [if (97 <=? c) && (c <=? 122) then c - 32 else c]
  else unicode_upper c.

Definition lower_char (c : char) : str :=
  if is_ascii c
  then [if (65 <=? c) && (c <=? 90) then c + 32 else c]
  else unicode_lower c.

(** [s.upper()] and [s.lower()] *)
Definition upper (s : str) : str := flat_map upper_char s.
Definition lower (s : str) : str := flat_map lower_char s.

Definition isdigit_char (c : char) : bool :=
  if is_ascii c then (48 <=? c) && (c <=? 57) else unicode_isdigit c.

(** [s.isdigit()]: at least one character, and all of them digits. *)
Definition isdigit (s : str) : bool :=
  match s with
  | [] => false
  | _ => forallb isdigit_char s
  end.

(** White space of [str.isspace]: TAB..CR, FS..US and the space. *)
Definition isspace_char (c : char) : bool :=
  if is_ascii c
  then ((9 <=? c) && (c <=? 13)) || ((28 <=? c) && (c <=? 32))
  else unicode_isspace c.

Fixpoint lstrip (s : str) : str :=
  match s with
  | c :: s' => if isspace_char c then lstrip s' else s
  | [] => []
  end.

Definition rstrip (s : str) : str := rev (lstrip (rev s)).

(** [s.strip()] *)
Definition strip (s : str) : str := rstrip (lstrip s).

(** The text begins (ends) with a character that is not white space. *)
Definition starts_clean (s : str) : bool :=
  match head s with Some c => negb (isspace_char c) | None => false end.
Definition ends_clean (s : str) : bool :=
  match last s with Some c => negb (isspace_char c) | None => false end.
End Methods.

(** [s.replace(" ", "")] *)
Definition remove_spaces (s : str) : str :=
  List.filter (fun c => negb (c =? 32)) s.

(** [s.startswith(p)] and [s.endswith(p)] *)
Fixpoint startswith (s p : str) {struct p} : bool :=
  match p, s with
  | [], _ => true
  | c :: p', d :: s' => (c =? d) && startswith s' p'
  | _ :: _, [] => false
  end.

Definition endswith (s p : str) : bool := startswith (rev s) (rev p).

(** The slices [s[n:]] and [s[:-n]] (for [n > 0]). *)
Definition slice_from (n : nat) (s : str) : str := skipn n s.
Definition slice_to_minus (n : nat) (s : str) : str :=
  firstn (length s - n) s.

(** [s.rfind(c)] as an option: the last index that holds [c]. *)
Fixpoint rfind_from (i : nat) (c : char) (s : str) : option nat :=
  match s with
  | [] => None
  | d :: s' =>
      match rfind_from (S i) c s' with
      | Some j => Some j
      | None => if d =? c then Some i else None
      end
  end.

Definition rfind (c : char) (s : str) : option nat := rfind_from 0 c s.

Definition str_eqb (a b : str) : bool := bool_decide (a = b).

End PyStr.
Export PyStr.

(** ** JSON values, as [json.loads] builds them *)

Module Json.

(** [JFloat] carries the IEEE 754 binary64 bit pattern of a Python float;
    a [dict] is a finite map from keys to values. *)
Inductive json : Type :=
| JNull
| JBool (b : bool)
| JInt (z : Z)
| JFloat (bits : N)
| JStr (s : str)
| JList (l : list json)
| JDict (d : gmap str json).

(** Truth value of an object in a condition ([if v:], [not v]). *)
Definition truthy (v : json) : bool :=
  match v with
  | JNull => false
  | JBool b => b
  | JInt z => negb (z =? 0)%Z
  | JFloat bits => negb (N.land bits (2 ^ 63 - 1) =? 0)
  | JStr s => match s with [] => false | _ => true end
  | JList l => match l with [] => false | _ => true end
  | JDict d => negb (bool_decide (d = ∅))
  end.

(** [isinstance(v, str)] *)
Definition isinstance_str (v : json) : bool :=
  match v with JStr _ => true | _ => false end.

(** [sub in s] for two strings. *)
Fixpoint is_substring (sub s : str) : bool :=
  startswith s sub ||
  match s with
  | [] => false
  | _ :: s' => is_substring sub s'
  end.

End Json.
Export Json.

(** ** Element trees of [xml.etree.ElementTree] *)

Module ET.

(** An element: its tag in Clark notation ([{uri}local]), its attributes,
    its text (absent when the element has none) and its children in document
    order. *)
Inductive Element : Type := mkElement {
  tag : str;
  attrib : gmap str str;
  text : option str;
  children : list Element
}.

(** [e.iter()]: the element, then its subtree, in document order. *)
Fixpoint iter (e : Element) : list Element :=
  e :: flat_map iter (children e).

(** The path [.//t]: every element below [e] (not [e] itself) with tag [t]. *)
Definition findall (e : Element) (t : str) : list Element :=
  List.filter (fun x => str_eqb (tag x) t) (flat_map iter (children e)).

(** [e.find('.//t')]: the first such element, or [None]. *)
Definition find (e : Element) (t : str) : option Element :=
  head (findall e t).

(** [e.get(key, default)] *)
Definition get (e : Element) (key dflt : str) : str :=
  default dflt (attrib e !! key).

(** The prefix map passed to [find] and [findall], applied to [ns:local]. *)
Definition ns_uri : str := lit "http://adis.mfcr.cz/rozhraniCRPDPH/".
Definition ns (local : str) : str := lit "{" ++ ns_uri ++ lit "}" ++ local.

End ET.

(** ** Effects: exceptions, the world and the monad of the methods *)

(** The two source files. *)
Inductive Variant : Type := Anthropic | Groq.

(** Exception classes raised in the code or by the libraries it calls; all
    of them derive from [Exception]. *)
Inductive Exc : Type :=
| JSONDecodeError | ParseError | TypeError | KeyError | AttributeError
| IndexError | ValueError | OSError | RequestException | BackendError
| DocumentError | ImageError | RecursionError | MemoryError.

Inductive Result (A : Type) : Type :=
| Ok (a : A)
| Raise (e : Exc).
Arguments Ok {A} a.
Arguments Raise {A} e.

Abbreviation bytes := (list N).

(** The request sent by [requests.post]: the fields of the call, the
    envelope being fixed but for the [dic] element. *)
Record SoapRequest : Type := {
  url : str;
  soap_action : str;
  dic : str;
  timeout : Z
}.

(** File operations that may fail in the operating system. *)
Inductive IoOp : Type :=
| OpenRead (p : str) | ReadData (p : str)
| OpenWrite (p : str) | WriteData (p : str)
| Remove (p : str).

(** Lines written by [print], one constructor per format string. *)
Inductive Msg : Type :=
| MsgHttpError (status : Z)             (* VAT service error: HTTP {status} *)
| MsgErrorChecking (e : Exc)            (* Error checking VAT reliability: {e} *)
| MsgNotInRegistry (vat : str)          (* VAT number {vat} not found in registry *)
| MsgUnreliable (vat : str)             (* VAT payer {vat} is unreliable *)
| MsgReliable (vat : str)               (* VAT payer {vat} is reliable *)
| MsgUnknownStatus (flag vat : str)     (* Unknown VAT status '{flag}' for {vat}, assuming reliable *)
| MsgNotInRecords (vat : str)           (* VAT number {vat} not found in returned records *)
| MsgStatusCode (code : str)            (* VAT service returned status code: {code} *)
| MsgErrorStatusCode (code : str)       (* VAT service returned error status code: {code} *)
| MsgNoStatus                           (* Could not find status in VAT service response *)
| MsgXmlParseError (e : Exc)            (* Error parsing VAT service XML response: {e} *)
| MsgXmlProcessingError (e : Exc)       (* Error processing VAT service response: {e} *)
| MsgErrorEnhancing (p : str) (e : Exc) (* Error enhancing image {p}: {e} *)
| MsgProcessing (p : str)               (* Processing: {p} *)
| MsgCheckingVat (v : json)             (* Checking VAT reliability for: {v} *)
| MsgCheckResult (reliable : bool)      (* VAT reliability check result: Reliable / Unreliable *)
| MsgNotDetermined                      (* VAT reliability could not be determined *)
| MsgNoVatNumber                        (* No VAT number found for reliability check *)
| MsgJsonError (e : Exc)                (* Error parsing JSON response: {e} *)
| MsgResponseText (t : str)             (* Response text: {t} *)
| MsgErrorProcessingInvoice (e : Exc)   (* Error processing invoice: {e} *)
| MsgSaved (name : str)                 (* Results saved to: {name} *)
| MsgNoFiles                            (* No supported invoice files found in the current directory. *)
| MsgSupportedFormats                   (* Supported formats: PDF, PNG, JPG, JPEG, GIF, WEBP *)
| MsgFound (n : nat)                    (* Found {n} invoice file(s) to process: *)
| MsgListed (p : str)                   (*   - {p} *)
| MsgSuccess (name : str)               (* Successfully processed: {name} *)
| MsgFailed (name : str)                (* Failed to process: {name} *)
| MsgRule.                              (* fifty dashes *)

(** The world the program acts on: the files of the working directory, the
    JSON documents written by [json.dump] (kept as the value serialised),
    the requests sent to the registry and the lines printed, oldest first. *)
Record World : Type := {
  fs : gmap str bytes;
  outputs : gmap str json;
  sent : list SoapRequest;
  stdout : list Msg
}.

Definition set_fs (f : gmap str bytes -> gmap str bytes) (w : World) : World :=
  {| fs := f (fs w); outputs := outputs w; sent := sent w; stdout := stdout w |}.
Definition set_outputs (f : gmap str json -> gmap str json) (w : World) : World :=
  {| fs := fs w; outputs := f (outputs w); sent := sent w; stdout := stdout w |}.
Definition add_sent (r : SoapRequest) (w : World) : World :=
  {| fs := fs w; outputs := outputs w; sent := sent w ++ [r]; stdout := stdout w |}.
Definition add_stdout (m : Msg) (w : World) : World :=
  {| fs := fs w; outputs := outputs w; sent := sent w; stdout := stdout w ++ [m] |}.

(** What lies outside the repository: the libraries the code imports and
    the services it calls.  Each may raise. *)
Class Externals := {
  image : Type;
  (** [json.loads] *)
  json_loads : str -> Result json;
  (** [ET.fromstring] *)
  fromstring : str -> Result ET.Element;
  (** [base64.b64encode(b).decode('utf-8')] *)
  b64encode : bytes -> str;
  (** [fitz]: open the document, take page 0, render it with
      [Matrix(scale, scale)] and return the PNG bytes. *)
  fitz_first_page_png : N -> bytes -> Result bytes;
  (** [PIL]: decoding, the enhancement operations and encoding to a format
      ([None]: by the extension of the file name). *)
  image_open : bytes -> Result image;
  image_mode_is_rgb : image -> bool;
  image_convert_rgb : image -> Result image;
  enhance_contrast : Z -> image -> Result image;
  enhance_sharpness : Z -> image -> Result image;
  enhance_brightness : Z -> image -> Result image;
  unsharp_mask : Z -> Z -> Z -> image -> Result image;
  image_encode : option str -> str -> image -> Result bytes;
  (** The vision backend of each variant: media type and encoded image to
      the text of the first choice. *)
  vision_backend : Variant -> str -> str -> Result str;
  (** The VAT registry: status code and body of the HTTP response. *)
  registry_post : SoapRequest -> Result (Z * str);
  (** Faults of the file system. *)
  io_fault : IoOp -> bool;
  (** The subdirectories of the working directory; the program creates and
      removes none.  A directory is no file: it can be opened neither for
      reading nor for writing, and [os.remove] refuses it. *)
  subdirs : gset str;
  subdirs_fault : forall p, p ∈ subdirs ->
    io_fault (OpenRead p) = true /\ io_fault (OpenWrite p) = true
    /\ io_fault (Remove p) = true
}.

(** A method runs in a world and ends by returning or by raising; the
    world's changes made before an exception stay. *)
Definition M (A : Type) : Type := World -> Result A * World.

Definition ret {A} (a : A) : M A := fun w => (Ok a, w).
Definition raise {A} (e : Exc) : M A := fun w => (Raise e, w).
Definition bind {A B} (m : M A) (k : A -> M B) : M B :=
  fun w => match m w with
           | (Ok a, w') => k a w'
           | (Raise e, w') => (Raise e, w')
           end.

(** [try: m except Exception as e: h e] *)
Definition try_except {A} (m : M A) (h : Exc -> M A) : M A :=
  fun w => match m w with
           | (Ok a, w') => (Ok a, w')
           | (Raise e, w') => h e w'
           end.

Definition lift {A} (r : Result A) : M A := fun w => (r, w).

(** [print]: the line is written.  Standard output is taken to be UTF-8 and
    the text to be one it encodes; a text that holds a lone surrogate makes
    the program's [print] raise [UnicodeEncodeError] instead.  The same
    holds for [json.dump] in [save_results]. *)
Definition print (m : Msg) : M unit := fun w => (Ok tt, add_stdout m w).

(** The texts UTF-8 encodes: those without a surrogate code point (U+D800
    to U+DFFF).  An object that is no string is printed by its [repr],
    which escapes them. *)
Definition is_surrogate (c : char) : bool := (55296 <=? c) && (c <=? 57343).
Definition encodable (s : str) : bool :=
  forallb (fun c => negb (is_surrogate c)) s.
Definition printable (x : json) : bool :=
  match x with JStr s => encodable s | _ => true end.

Declare Scope py_scope.
Delimit Scope py_scope with py.
Notation "x <- m ;; k" := (bind m (fun x => k))
  (at level 100, m at next level, right associativity) : py_scope.
Notation "m ;;; k" := (bind m (fun _ => k))
  (at level 100, right associativity) : py_scope.
Local Open Scope py_scope.

(** [try: m except cls as e: h e], for a handler of some classes only. *)
Definition try_except_of {A} (cls : Exc -> bool) (m : M A) (h : Exc -> M A)
  : M A :=
  fun w => match m w with
           | (Ok a, w') => (Ok a, w')
           | (Raise e, w') => if cls e then h e w' else (Raise e, w')
           end.

Definition is_JSONDecodeError (e : Exc) : bool :=
  match e with JSONDecodeError => true | _ => false end.

(** ** Operations on Python objects used by [process_invoice] *)

(** [key in container] *)
Definition contains (container : json) (key : str) : Result bool :=
  match container with
  | JDict d => Ok (bool_decide (is_Some (d !! key)))
  | JList l =>
      Ok (existsb (fun x => match x with
                            | JStr s => str_eqb s key
                            | _ => false
                            end) l)
  | JStr s => Ok (is_substring key s)
  | _ => Raise TypeError
  end.

(** [container[key]] for a string key *)
Definition getitem (container : json) (key : str) : Result json :=
  match container with
  | JDict d => match d !! key with Some v => Ok v | None => Raise KeyError end
  | _ => Raise TypeError
  end.

(** [container[key] = v] for a string key; the object is updated in place
    and is returned here. *)
Definition setitem (container : json) (key : str) (v : json) : Result json :=
  match container with
  | JDict d => Ok (JDict (<[key := v]> d))
  | _ => Raise TypeError
  end.

(** ** Paths: [Path(p).suffix], [Path(p).stem]; a path is a file name of the
    scanned directory. *)

Definition dot : char := 46.

Definition suffix (name : str) : str :=
  match rfind dot name with
  | Some i =>
      if ((0 <? i) && (i <? length name - 1))%nat then skipn i name else []
  | None => []
  end.

Definition stem (name : str) : str :=
  match rfind dot name with
  | Some i =>
      if ((0 <? i) && (i <? length name - 1))%nat then firstn i name else name
  | None => name
  end.

(** ** The class [InvoiceExtractor] *)

Module InvoiceExtractor.
Section Methods.
Context {U : UnicodeDB} {X : Externals}.

(** *** Files *)

(** [with open(p, "rb") as f: f.read()] *)
Definition read_file (p : str) : M bytes := fun w =>
  if io_fault (OpenRead p) then (Raise OSError, w)
  else match fs w !! p with
       | None => (Raise OSError, w)
       | Some b => if io_fault (ReadData p) then (Raise OSError, w)
                   else (Ok b, w)
       end.

(** [with open(p, "wb") as f: f.write(b)]: opening creates or truncates
    the file, which therefore exists when the write itself fails. *)
Definition write_file (p : str) (b : bytes) : M unit := fun w =>
  if io_fault (OpenWrite p) then (Raise OSError, w)
  else if io_fault (WriteData p)
       then (Raise OSError, set_fs (insert p []) w)
       else (Ok tt, set_fs (insert p b) w).

(** [os.remove(p)] *)
Definition os_remove (p : str) : M unit := fun w =>
  if io_fault (Remove p) then (Raise OSError, w)
  else match fs w !! p with
       | None => (Raise OSError, w)
       | Some _ => (Ok tt, set_fs (delete p) w)
       end.

(** [img.save(p, fmt, quality=100, optimize=False)]: Pillow opens the
    file, runs the encoder and, when that fails, removes the file if the
    call created it. *)
Definition image_save (p : str) (fmt : option str) (img : image) : M unit :=
  fun w =>
    if io_fault (OpenWrite p) then (Raise OSError, w)
    else
      let undo := match fs w !! p with
                  | None => set_fs (delete p) w
                  | Some _ => set_fs (insert p []) w
                  end in
      match image_encode fmt p img with
      | Raise e => (Raise e, undo)
      | Ok b => if io_fault (WriteData p) then (Raise OSError, undo)
                else (Ok tt, set_fs (insert p b) w)
      end.

(** [encode_image] *)
Definition encode_image (image_path : str) : M str :=
  b <- read_file image_path ;;
  ret (b64encode b).

(** [enhance_image_for_ocr] (Groq variant); the factors 1.3, 1.2 and 1.1
    are given in hundredths. *)
Definition enhance_image_for_ocr (img : image) : M image :=
  img <- (if negb (image_mode_is_rgb img)
          then lift (image_convert_rgb img) else ret img) ;;
  img <- lift (enhance_contrast 130 img) ;;
  img <- lift (enhance_sharpness 120 img) ;;
  img <- lift (enhance_brightness 110 img) ;;
  lift (unsharp_mask 1 150 3 img).

Definition temp_image_path (v : Variant) : str :=
  match v with
  | Anthropic => lit "temp_invoice.png"
  | Groq => lit "temp_invoice_enhanced.png"
  end.

(** [fitz.open(p)]: PyMuPDF reads the file itself, and a file it cannot
    open is reported by an exception of its own. *)
Definition fitz_open (p : str) : M bytes := fun w =>
  match read_file p w with
  | (Raise _, w') => (Raise DocumentError, w')
  | r => r
  end.

(** [pdf_to_image] *)
Definition pdf_to_image (v : Variant) (pdf_path : str) : M str :=
  match v with
  | Anthropic =>
      doc <- fitz_open pdf_path ;;
      img_data <- lift (fitz_first_page_png 2 doc) ;;
      write_file (temp_image_path Anthropic) img_data ;;;
      encoded_image <- encode_image (temp_image_path Anthropic) ;;
      os_remove (temp_image_path Anthropic) ;;;
      ret encoded_image
  | Groq =>
      doc <- fitz_open pdf_path ;;
      img_data <- lift (fitz_first_page_png 3 doc) ;;
      img <- lift (image_open img_data) ;;
      img <- enhance_image_for_ocr img ;;
      image_save (temp_image_path Groq) (Some (lit "PNG")) img ;;;
      encoded_image <- encode_image (temp_image_path Groq) ;;
      os_remove (temp_image_path Groq) ;;;
      ret encoded_image
  end.

(** [enhance_existing_image] (Groq variant): the new temporary path, a
    [str], or the argument itself, a [Path], when enhancement failed. *)
Definition enhance_existing_image (image_path : str) : M (str + str) :=
  try_except
    (data <- read_file image_path ;;
     img <- lift (image_open data) ;;
     enhanced_img <- enhance_image_for_ocr img ;;
     let temp_path := lit "temp_enhanced_" ++ image_path in
     image_save temp_path None enhanced_img ;;;
     ret (inl temp_path))
    (fun e => print (MsgErrorEnhancing image_path e) ;;; ret (inr image_path)).

(** *** The VAT registry *)

Definition registry_url : str :=
  lit "https://adisrws.mfcr.cz/adistc/axis2/services/rozhraniCRPDPH.rozhraniCRPDPHSOAP".
Definition registry_action : str :=
  lit "http://adis.mfcr.cz/rozhraniCRPDPH/getStatusNespolehlivyPlatce".

(** [requests.post(url, data=soap_body, headers=headers, timeout=10)] *)
Definition requests_post (req : SoapRequest) : M (Z * str) := fun w =>
  (registry_post req, add_sent req w).

(** The loop of [parse_vat_response] over [platce_elements], with the
    statements that follow it, in the Anthropic variant. *)
Fixpoint anthropic_records (vat_number : str)
    (platce_elements : list ET.Element) : M (option bool) :=
  match platce_elements with
  | [] => ret (Some true)
  | platce :: rest =>
      match ET.find platce (ET.ns (lit "dic")) with
      | Some dic_elem =>
          if bool_decide (ET.text dic_elem = Some vat_number) then
            match ET.find platce (ET.ns (lit "nespolehlivy")) with
            | Some nespolehlivy =>
                match ET.text nespolehlivy with
                | Some t =>
                    let is_unreliable := str_eqb (lower t) (lit "true") in
                    ret (Some (negb is_unreliable))
                | None => raise AttributeError
                end
            | None => anthropic_records vat_number rest
            end
          else anthropic_records vat_number rest
      | None => anthropic_records vat_number rest
      end
  end.

(** The same loop in the Groq variant. *)
Fixpoint groq_records (vat_number : str)
    (platce_elements : list ET.Element) : M (option bool) :=
  match platce_elements with
  | [] => print (MsgNotInRecords vat_number) ;;; ret (Some false)
  | platce :: rest =>
      let dic_value := ET.get platce (lit "dic") [] in
      let nespolehlivy_value := ET.get platce (lit "nespolehlivyPlatce") [] in
      if str_eqb dic_value vat_number then
        if str_eqb nespolehlivy_value (lit "NENALEZEN") then
          print (MsgNotInRegistry vat_number) ;;; ret (Some false)
        else if str_eqb nespolehlivy_value (lit "ANO") then
          print (MsgUnreliable vat_number) ;;; ret (Some false)
        else if str_eqb nespolehlivy_value (lit "NE")
                || str_eqb nespolehlivy_value [] then
          print (MsgReliable vat_number) ;;; ret (Some true)
        else
          print (MsgUnknownStatus nespolehlivy_value vat_number) ;;;
          ret (Some true)
      else groq_records vat_number rest
  end.

(** [parse_vat_response]: [True], [False] or [None]. *)
Definition parse_vat_response (v : Variant) (xml_response vat_number : str)
  : M (option bool) :=
  try_except
    (root <- lift (fromstring xml_response) ;;
     match ET.find root (ET.ns (lit "status")) with
     | Some status_elem =>
         let status_code := ET.get status_elem (lit "statusCode") [] in
         if str_eqb status_code (lit "0") then
           match v with
           | Anthropic =>
               anthropic_records vat_number
                 (ET.findall root (ET.ns (lit "StatusNespolehlivyPlatce")))
           | Groq =>
               let platce_elements :=
                 ET.findall root (ET.ns (lit "statusPlatceDPH")) in
               match platce_elements with
               | [] => print (MsgNotInRegistry vat_number) ;;;
                       ret (Some false)
               | _ => groq_records vat_number platce_elements
               end
           end
         else
           print (match v with
                  | Anthropic => MsgStatusCode status_code
                  | Groq => MsgErrorStatusCode status_code
                  end) ;;;
           ret None
     | None => print MsgNoStatus ;;; ret None
     end)
    (fun e =>
       print (match e with
              | ParseError => MsgXmlParseError e
              | _ => MsgXmlProcessingError e
              end) ;;;
       ret None).

(** [check_vat_reliability]; the argument is whatever object the record
    holds under [vat_number].  The methods [replace], [upper] and
    [startswith] exist on a [str] only. *)
Definition check_vat_reliability (v : Variant) (vat_number : json)
  : M (option bool) :=
  if negb (truthy vat_number) || negb (isinstance_str vat_number)
  then ret None
  else
    match vat_number with
    | JStr s =>
        let vat_clean := upper (remove_spaces s) in
        if negb (startswith vat_clean (lit "CZ")) then ret None
        else
          let vat_numeric := slice_from 2 vat_clean in
          if negb (isdigit vat_numeric)
             || (length vat_numeric <? 8)%nat
             || (10 <? length vat_numeric)%nat
          then ret None
          else
            try_except
              (response <- requests_post
                 {| url := registry_url; soap_action := registry_action;
                    dic := vat_numeric; timeout := 10 |} ;;
               let '(status_code, response_text) := response in
               if (status_code =? 200)%Z
               then parse_vat_response v response_text vat_numeric
               else print (MsgHttpError status_code) ;;; ret None)
              (fun e => print (MsgErrorChecking e) ;;; ret None)
    | _ => raise AttributeError
    end.

(** *** One invoice *)

Definition fence : str := lit "```".
Definition fence_json : str := lit "```json".

(** The clean-up of the backend's text in [process_invoice]:
    [strip], drop a leading [```json], drop a trailing [```], [strip]. *)
Definition clean_response_text (text : str) : str :=
  let response_text := strip text in
  let response_text :=
    if startswith response_text fence_json
    then slice_from 7 response_text else response_text in
  let response_text :=
    if endswith response_text fence
    then slice_to_minus 3 response_text else response_text in
  strip response_text.

Definition key_vat_number : str := lit "vat_number".
Definition key_reliable : str := lit "reliable_VAT_payer".
Definition unable_to_verify : json := JStr (lit "Unable to verify").
Definition no_vat_number_found : json := JStr (lit "No VAT number found").

(** The statements of the inner [try] of [process_invoice] that follow
    [json.loads]: the VAT check and the assignment of
    [reliable_VAT_payer]. *)
Definition attach_vat_reliability (v : Variant) (extracted_data : json)
  : M json :=
  present <- lift (contains extracted_data key_vat_number) ;;
  has_vat <- (if present : bool
              then x <- lift (getitem extracted_data key_vat_number) ;;
                   ret (truthy x)
              else ret false) ;;
  if has_vat : bool then
    vat_number <- lift (getitem extracted_data key_vat_number) ;;
    print (MsgCheckingVat vat_number) ;;;
    vat_reliability <- check_vat_reliability v vat_number ;;
    match vat_reliability with
    | Some b =>
        d <- lift (setitem extracted_data key_reliable (JBool b)) ;;
        print (MsgCheckResult b) ;;;
        ret d
    | None =>
        d <- lift (setitem extracted_data key_reliable unable_to_verify) ;;
        print MsgNotDetermined ;;;
        ret d
    end
  else
    d <- lift (setitem extracted_data key_reliable no_vat_number_found) ;;
    print MsgNoVatNumber ;;;
    ret d.

(** The part of [process_invoice] that handles the backend's text: the
    clean-up and the inner [try ... except json.JSONDecodeError]. *)
Definition parse_response (v : Variant) (text : str) : M (option json) :=
  let response_text := clean_response_text text in
  try_except_of is_JSONDecodeError
    (extracted_data <- lift (json_loads response_text) ;;
     d <- attach_vat_reliability v extracted_data ;;
     ret (Some d))
    (fun e =>
       print (MsgJsonError e) ;;;
       print (MsgResponseText response_text) ;;;
       ret None).

Definition media_type_of (file_extension : str) : str :=
  if str_eqb file_extension (lit ".jpg")
     || str_eqb file_extension (lit ".jpeg") then lit "image/jpeg"
  else if str_eqb file_extension (lit ".png") then lit "image/png"
  else if str_eqb file_extension (lit ".gif") then lit "image/gif"
  else if str_eqb file_extension (lit ".webp") then lit "image/webp"
  else lit "image/png".

(** The first half of [process_invoice], outside its [try]: the encoded
    image and its media type. *)
Definition normalize (v : Variant) (file_path : str) : M (str * str) :=
  let file_extension := lower (suffix file_path) in
  if str_eqb file_extension (lit ".pdf") then
    encoded_image <- pdf_to_image v file_path ;;
    ret (encoded_image, lit "image/png")
  else
    encoded_image <-
      match v with
      | Anthropic => encode_image file_path
      | Groq =>
          enhanced_image_path <- enhance_existing_image file_path ;;
          match enhanced_image_path with
          | inl temp_path =>
              encoded_image <- encode_image temp_path ;;
              os_remove temp_path ;;;
              ret encoded_image
          | inr original => encode_image original
          end
      end ;;
    ret (encoded_image, media_type_of file_extension).

(** [process_invoice]: the record, or [None]. *)
Definition process_invoice (v : Variant) (file_path : str)
  : M (option json) :=
  print (MsgProcessing file_path) ;;;
  image <- normalize v file_path ;;
  let '(encoded_image, media_type) := image in
  try_except
    (text <- lift (vision_backend v media_type encoded_image) ;;
     parse_response v text)
    (fun e => print (MsgErrorProcessingInvoice e) ;;; ret None).

(** *** The batch *)

Definition output_filename (original_filename : str) : str :=
  stem original_filename ++ lit "_extracted.json".

(** [save_results]: [open(name, 'w')] truncates the file, so a document
    written there before is lost when [json.dump] fails.  The record is
    taken to be one UTF-8 encodes, as the text of [print] is; a record with
    a lone surrogate makes [json.dump] raise [UnicodeEncodeError]. *)
Definition save_results (data : json) (original_filename : str) : M unit :=
  let name := output_filename original_filename in
  (fun w =>
     if io_fault (OpenWrite name) then (Raise OSError, w)
     else if io_fault (WriteData name)
          then (Raise OSError, set_outputs (delete name) w)
          else (Ok tt, set_outputs (insert name data) w)) ;;;
  print (MsgSaved name).

Definition supported_extensions : list str :=
  [lit ".pdf"; lit ".png"; lit ".jpg"; lit ".jpeg"; lit ".gif"; lit ".webp"].

(** The entries of the scanned directory: its files and its
    subdirectories. *)
Definition entries (w : World) : list str :=
  map fst (map_to_list (fs w)) ++ elements subdirs.

(** [folder.glob("*" + ext)] in the scanned directory: every entry whose
    name matches, a file or a directory. *)
Definition glob (ext : str) (w : World) : list str :=
  List.filter (fun name => endswith name ext) (entries w).

(** [get_supported_files] *)
Definition get_supported_files : M (list str) := fun w =>
  (Ok (flat_map (fun ext => glob ext w ++ glob (upper ext) w)
         supported_extensions), w).

(** The body of the [for file_path in files] loop. *)
Definition process_one (v : Variant) (file_path : str) : M unit :=
  extracted_data <- process_invoice v file_path ;;
  match extracted_data with
  | Some data =>
      if truthy data
      then save_results data file_path ;;; print (MsgSuccess file_path)
      else print (MsgFailed file_path)
  | None => print (MsgFailed file_path)
  end ;;;
  print MsgRule.

Fixpoint for_each {A} (body : A -> M unit) (l : list A) : M unit :=
  match l with
  | [] => ret tt
  | x :: l' => body x ;;; for_each body l'
  end.

(** [process_all_invoices], given the files found. *)
Definition process_files (v : Variant) (files : list str) : M unit :=
  match files with
  | [] => print MsgNoFiles ;;; print MsgSupportedFormats
  | _ =>
      print (MsgFound (length files)) ;;;
      for_each (fun file => print (MsgListed file)) files ;;;
      for_each (process_one v) files
  end.

(** [process_all_invoices] *)
Definition process_all_invoices (v : Variant) : M unit :=
  files <- get_supported_files ;;
  process_files v files.
End Methods.
End InvoiceExtractor.

(** ** The specification's vocabulary *)

Module Spec.

(** The reliability verdicts of the specification's data model. *)
Inductive Verdict : Type :=
| Reliable | Unreliable | NotFound | ServiceUnavailable | Ineligible | NoVATNumber.

(** The enumeration of the reliability flag, in the specification's order:
    ANO, then NE or empty, then NENALEZEN, then any other value. *)
Definition classify_flag (flag : str) : Verdict :=
  if str_eqb flag (lit "ANO") then Unreliable
  else if str_eqb flag (lit "NE") || str_eqb flag [] then Reliable
  else if str_eqb flag (lit "NENALEZEN") then NotFound
  else Reliable.

(** The record of a response whose identifier attribute is the body. *)
Definition matching_record (records : list ET.Element) (body : str)
  : option ET.Element :=
  List.find (fun r => str_eqb (ET.get r (lit "dic") []) body) records.

(** Classification of the payer records: no record at all, no record that
    matches, or the flag of the record that matches. *)
Definition classify_records (records : list ET.Element) (body : str)
  : Verdict :=
  match records with
  | [] => NotFound
  | _ =>
      match matching_record records body with
      | None => NotFound
      | Some r => classify_flag (ET.get r (lit "nespolehlivyPlatce") [])
      end
  end.

(** The value [check_vat_reliability] returns for a verdict it reaches:
    [True], [False] or [None]. *)
Definition verdict_value (v : Verdict) : option bool :=
  match v with
  | Reliable => Some true
  | Unreliable | NotFound => Some false
  | ServiceUnavailable | Ineligible | NoVATNumber => None
  end.

(** The verdict a line printed by the checker states. *)
Definition announced (m : Msg) : option Verdict :=
  match m with
  | MsgNotInRegistry _ | MsgNotInRecords _ => Some NotFound
  | MsgUnreliable _ => Some Unreliable
  | MsgReliable _ | MsgUnknownStatus _ _ => Some Reliable
  | MsgHttpError _ | MsgErrorChecking _ | MsgStatusCode _
  | MsgErrorStatusCode _ | MsgNoStatus | MsgXmlParseError _
  | MsgXmlProcessingError _ => Some ServiceUnavailable
  | _ => None
  end.


Section Checker.
Context {U : UnicodeDB} {X : Externals}.

(** The normalized identifier (spaces stripped, uppercased), its body
    after the two-letter prefix, and eligibility: the prefix is CZ and
    the body is 8 to 10 digits. *)
Definition normalized (vat : str) : str := upper (remove_spaces vat).
Definition vat_body (vat : str) : str := skipn 2 (normalized vat).
Definition eligible (vat : str) : bool :=
  startswith (normalized vat) (lit "CZ")
  && isdigit (vat_body vat)
  && (8 <=? length (vat_body vat))%nat
  && (length (vat_body vat) <=? 10)%nat.

(** The request for an identifier: the body is its sole payload. *)
Definition request_for (vat : str) : SoapRequest :=
  {| url := InvoiceExtractor.registry_url;
     soap_action := InvoiceExtractor.registry_action;
     dic := vat_body vat; timeout := 10 |}.

(** The last two states of the checker, on the body of a response with
    HTTP status 200: protocol (the envelope parses and carries the
    success status code) and payer records. *)
Definition response_verdict (body_text body : str) : Verdict :=
  match fromstring body_text with
  | Raise _ => ServiceUnavailable
  | Ok root =>
      match ET.find root (ET.ns (lit "status")) with
      | None => ServiceUnavailable
      | Some st =>
          if str_eqb (ET.get st (lit "statusCode") []) (lit "0")
          then classify_records
                 (ET.findall root (ET.ns (lit "statusPlatceDPH"))) body
          else ServiceUnavailable
      end
  end.

(** The state machine of the reliability checker, state by state:
    normalize, request, transport, then the two states above. *)
Definition checker_verdict (vat : str) : Verdict :=
  if negb (eligible vat) then Ineligible
  else
    match registry_post (request_for vat) with
    | Raise _ => ServiceUnavailable
    | Ok (status, body_text) =>
        if negb (status =? 200)%Z then ServiceUnavailable
        else response_verdict body_text (vat_body vat)
    end.

(** The verdict attached to a parsed record: none is sought when
    [vat_number] is absent or empty; an identifier that is not a string
    cannot be verified. *)
Definition record_verdict (d : gmap str json) : Verdict :=
  match d !! InvoiceExtractor.key_vat_number with
  | Some x =>
      if truthy x
      then match x with
           | JStr s => checker_verdict s
           | _ => Ineligible
           end
      else NoVATNumber
  | None => NoVATNumber
  end.
End Checker.

(** The value of [reliable_VAT_payer] for each verdict, as the code sets
    it. *)
Definition field_of_verdict (v : Verdict) : json :=
  match v with
  | Reliable => JBool true
  | Unreliable | NotFound => JBool false
  | ServiceUnavailable | Ineligible => InvoiceExtractor.unable_to_verify
  | NoVATNumber => InvoiceExtractor.no_vat_number_found
  end.

(** The value of [reliable_VAT_payer] for each result of the check. *)
Definition field_of_result (r : option bool) : json :=
  match r with
  | Some b => JBool b
  | None => InvoiceExtractor.unable_to_verify
  end.

(** The twelve keys of an invoice record. *)
Definition record_keys : gset str :=
  list_to_set
    [lit "supplier_name"; lit "vat_number"; lit "invoice_number";
     lit "date_of_sale"; lit "due_date"; lit "duzp";
     lit "amount_without_VAT_21"; lit "VAT_21";
     lit "amount_without_VAT_12"; lit "VAT_12";
     lit "total_amount_with_VAT"; lit "reliable_VAT_payer"].

End Spec.
Import InvoiceExtractor Spec.

(** ** Concrete environments, for examples *)

Module Scenario.

(** A literal in which each apostrophe stands for a double quote. *)
Definition jlit (s : string) : str :=
  map (fun c => if c =? 39 then 34 else c) (lit s).

Definition soap_ns (local : str) : str :=
  lit "{http://schemas.xmlsoap.org/soap/envelope/}" ++ local.

Definition attrs (l : list (str * str)) : gmap str str := list_to_map l.

(** A response of the registry around the given children of the response
    element. *)
Definition envelope (items : list ET.Element) : ET.Element :=
  ET.mkElement (soap_ns (lit "Envelope")) ∅ None
    [ET.mkElement (soap_ns (lit "Body")) ∅ None
       [ET.mkElement (ET.ns (lit "StatusNespolehlivyPlatceResponse")) ∅ None
          items]].

Definition status_ok : ET.Element :=
  ET.mkElement (ET.ns (lit "status"))
    (attrs [(lit "statusCode", lit "0"); (lit "statusText", lit "OK")])
    None [].

Definition payer (dic_value flag : str) : ET.Element :=
  ET.mkElement (ET.ns (lit "statusPlatceDPH"))
    (attrs [(lit "dic", dic_value); (lit "nespolehlivyPlatce", flag)])
    None [].

(** Success, one record: payer 12345678 is unreliable. *)
Definition xml_ano : str :=
  lit "<soapenv:Envelope xmlns:soapenv='http://schemas.xmlsoap.org/soap/envelope/'><soapenv:Body><StatusNespolehlivyPlatceResponse xmlns='http://adis.mfcr.cz/rozhraniCRPDPH/'><status statusCode='0' statusText='OK'/><statusPlatceDPH dic='12345678' nespolehlivyPlatce='ANO'/></StatusNespolehlivyPlatceResponse></soapenv:Body></soapenv:Envelope>".
Definition root_ano : ET.Element :=
  envelope [status_ok; payer (lit "12345678") (lit "ANO")].

(** Success, no record at all. *)
Definition xml_empty : str :=
  lit "<soapenv:Envelope xmlns:soapenv='http://schemas.xmlsoap.org/soap/envelope/'><soapenv:Body><StatusNespolehlivyPlatceResponse xmlns='http://adis.mfcr.cz/rozhraniCRPDPH/'><status statusCode='0' statusText='OK'/></StatusNespolehlivyPlatceResponse></soapenv:Body></soapenv:Envelope>".
Definition root_empty : ET.Element := envelope [status_ok].

(** Texts of the vision backend and the objects [json.loads] makes of
    them. *)
Definition text_supplier_only : str := jlit "{'supplier_name': 'ACME s.r.o.'}".
Definition data_supplier_only : gmap str json :=
  {[ lit "supplier_name" := JStr (lit "ACME s.r.o.") ]}.

Definition text_unknown_payer : str :=
  jlit "{'supplier_name': 'Beta a.s.', 'vat_number': 'CZ87654321'}".
Definition data_unknown_payer : gmap str json :=
  <[ lit "supplier_name" := JStr (lit "Beta a.s.") ]>
    {[ lit "vat_number" := JStr (lit "CZ87654321") ]}.

Definition text_list : str := lit "[]".

(** Files of the scanned directory. *)
Definition png_a : bytes := [137; 80; 78; 71; 1].
Definition pdf_b : bytes := [37; 80; 68; 70; 2].
Definition png_c : bytes := [137; 80; 78; 71; 3].
Definition png_d : bytes := [137; 80; 78; 71; 4].
Definition pdf_e : bytes := [37; 80; 68; 70; 5].
Definition page_e : bytes := [137; 80; 78; 71; 50].

(** The environment: [json.loads] and [ET.fromstring] with the values the
    library functions give on the texts above (any other text is rejected),
    a registry that knows payer 12345678 and has no record for 87654321,
    a backend that answers by image, a renderer that reads [pdf_e] and
    rejects every other document, and the given faults of the file system.
    The encoding of bytes to text is left as the identity, and so are the
    image operations. *)
Definition demo_with (faults : IoOp -> bool) : Externals := {|
  image := bytes;
  json_loads t :=
    if str_eqb t text_supplier_only then Ok (JDict data_supplier_only)
    else if str_eqb t text_unknown_payer then Ok (JDict data_unknown_payer)
    else if str_eqb t text_list then Ok (JList [])
    else Raise JSONDecodeError;
  fromstring t :=
    if str_eqb t xml_ano then Ok root_ano
    else if str_eqb t xml_empty then Ok root_empty
    else Raise ParseError;
  b64encode b := b;
  fitz_first_page_png _ doc :=
    if bool_decide (doc = pdf_e) then Ok page_e else Raise DocumentError;
  image_open b := Ok b;
  image_mode_is_rgb _ := true;
  image_convert_rgb i := Ok i;
  enhance_contrast _ i := Ok i;
  enhance_sharpness _ i := Ok i;
  enhance_brightness _ i := Ok i;
  unsharp_mask _ _ _ i := Ok i;
  image_encode _ _ i := Ok i;
  vision_backend _ _ encoded_image :=
    if bool_decide (encoded_image = png_a) then Ok text_supplier_only
    else if bool_decide (encoded_image = png_c) then Ok text_unknown_payer
    else if bool_decide (encoded_image = png_d) then Ok text_list
    else Raise BackendError;
  registry_post req :=
    if str_eqb (dic req) (lit "12345678") then Ok (200%Z, xml_ano)
    else if str_eqb (dic req) (lit "87654321") then Ok (200%Z, xml_empty)
    else Raise RequestException;
  io_fault := faults;
  subdirs := ∅;
  subdirs_fault p H := match not_elem_of_empty p H with end
|}.

(** A faultless file system. *)
Definition demo : Externals := demo_with (fun _ => false).

(** A full disk: the temporary image of the Anthropic variant is created
    but cannot be written. *)
Definition demo_disk_full : Externals :=
  demo_with (fun op => match op with
                       | WriteData p => str_eqb p (lit "temp_invoice.png")
                       | _ => false
                       end).

(** The temporary images of the Groq variant cannot be read back. *)
Definition demo_unreadable_temp : Externals :=
  demo_with (fun op => match op with
                       | ReadData p => startswith p (lit "temp_")
                       | _ => false
                       end).

Definition world (files : list (str * bytes)) : World :=
  {| fs := list_to_map files; outputs := ∅; sent := []; stdout := [] |}.

Definition empty_world : World := world [].

End Scenario.

(** ** Start-up of the Groq variant: the API key *)

Module Startup.

Definition api_key_name : str := lit "GROQ_API_KEY".
Definition api_key_prefix : str := lit "GROQ_API_KEY=".
Definition equals_sign : char := 61.

(** [s.split(c, 1)[1]]: the text after the first [c]; the index fails when
    [s] holds no [c]. *)
Fixpoint after_first (c : char) (s : str) : Result str :=
  match s with
  | [] => Raise IndexError
  | d :: s' => if d =? c then Ok s' else after_first c s'
  end.

Section LoadEnv.
Context {U : UnicodeDB}.

(** The loop [for line in f] of [load_env_file]: the key of the first line
    that starts with [GROQ_API_KEY=], if there is one. *)
Fixpoint scan_env_lines (lines : list str) : Result (option str) :=
  match lines with
  | [] => Ok None
  | line :: rest =>
      if startswith line api_key_prefix
      then match after_first equals_sign (strip line) with
           | Ok key => Ok (Some key)
           | Raise e => Raise e
           end
      else scan_env_lines rest
  end.

(** [load_env_file].  [dotenv] is the file [.env]: [None] when it does
    not exist; [Some (Ok lines)] when it is read without error, [lines]
    being its lines; [Some (Raise e)] when opening it raises [e], or when
    decoding it does before the loop ends (the file is decoded by blocks,
    ahead of the line in hand, so that a later line that does not decode
    stops the loop before the key is used).  Decoding yields no surrogate,
    so the lines of a file hold none.  [environ] is [os.environ],
    where an assignment is refused for a value that holds a null character.
    The result is the new environment and whether the warning was
    printed. *)
Definition load_env_file (dotenv : option (Result (list str)))
    (environ : gmap str str) : Result (gmap str str * bool) :=
  let check_environ :=
    Ok (environ,
        match environ !! api_key_name with
        | Some (_ :: _) => false
        | _ => true
        end) in
  match dotenv with
  | Some (Raise e) => Raise e
  | Some (Ok lines) =>
      match scan_env_lines lines with
      | Raise e => Raise e
      | Ok (Some key) =>
          if bool_decide (0 ∈ key) then Raise ValueError
          else Ok (<[api_key_name := key]> environ, false)
      | Ok None => check_environ
      end
  | None => check_environ
  end.
End LoadEnv.

(** [InvoiceExtractor.__init__] of the Groq variant: the key handed to the
    client. *)
Definition init (api_key : option str) (environ : gmap str str)
  : Result str :=
  match api_key with
  | Some key => Ok key
  | None =>
      match environ !! api_key_name with
      | Some (c :: key) => Ok (c :: key)
      | _ => Raise ValueError
      end
  end.

End Startup.

(** ** Frames: what a method leaves alone *)

(** [m] relates every world to the world it ends in by [R], whether it
    returns or raises. *)
Definition preserves {A} (R : World -> World -> Prop) (m : M A) : Prop :=
  forall w, R w (snd (m w)).

(** Relations that do not look at the printed lines, at the requests
    sent. *)
Definition ignores_stdout (R : World -> World -> Prop) : Prop :=
  forall m w, R w (add_stdout m w).
Definition ignores_sent (R : World -> World -> Prop) : Prop :=
  forall r w, R w (add_sent r w).

(** An update of a store that leaves every entry but that of [p] alone. *)
Definition touches_only {V} (p : str) (g : gmap str V -> gmap str V) : Prop :=
  forall m q, q <> p -> g m !! q = m !! q.

(** Relations that accept any change of the file [p], of the output [n]. *)
Definition allows_write (R : World -> World -> Prop) (p : str) : Prop :=
  forall g w, touches_only p g -> R w (set_fs g w).
Definition allows_output (R : World -> World -> Prop) (n : str) : Prop :=
  forall g w, touches_only n g -> R w (set_outputs g w).

(** Nothing but the printed lines changes. *)
Definition only_prints (w w' : World) : Prop :=
  fs w' = fs w /\ outputs w' = outputs w /\ sent w' = sent w.

(** The file [p] stays as it is: present with the same content, or absent. *)
Definition keeps_file (p : str) (w w' : World) : Prop :=
  fs w' !! p = fs w !! p.

(** The output stored under [n] stays. *)
Definition keeps_output (n : str) (w w' : World) : Prop :=
  outputs w' !! n = outputs w !! n.

(** A request as [check_vat_reliability] builds it: the registry's URL and
    action, the timeout of ten seconds and a body of 8 to 10 characters that
    [str.isdigit] accepts (the decimal digits, and the other digit
    characters of Unicode as well). *)
Definition good_request {U : UnicodeDB} (r : SoapRequest) : Prop :=
  url r = registry_url /\ soap_action r = registry_action
  /\ timeout r = 10%Z
  /\ isdigit (dic r) = true /\ (8 <= length (dic r) <= 10)%nat.

(** From [w] to [w'] at most [n] requests are sent, all of that kind, and
    none is taken back. *)
Definition sends_good {U : UnicodeDB} (n : nat) (w w' : World) : Prop :=
  exists l, sent w' = sent w ++ l /\ Forall good_request l
            /\ (length l <= n)%nat.


(** The printed lines stay. *)
Definition keeps_stdout (w w' : World) : Prop := stdout w' = stdout w.

(** The temporary files of a batch: that of the PDF conversion and, in the
    Groq variant, one per input for its enhanced copy. *)
Definition temp_paths (v : Variant) (files : list str) : list str :=
  temp_image_path v ::
  match v with
  | Anthropic => []
  | Groq => map (fun f => lit "temp_enhanced_" ++ f) files
  end.

(** The patterns of [get_supported_files], in the order of its calls to
    [glob]. *)
Definition glob_patterns : list str :=
  [lit ".pdf"; lit ".PDF"; lit ".png"; lit ".PNG"; lit ".jpg"; lit ".JPG";
   lit ".jpeg"; lit ".JPEG"; lit ".gif"; lit ".GIF"; lit ".webp"; lit ".WEBP"].

(** The media type that goes with each pattern. *)
Definition pattern_media : list (str * str) :=
  [(lit ".pdf", lit "image/png"); (lit ".PDF", lit "image/png");
   (lit ".png", lit "image/png"); (lit ".PNG", lit "image/png");
   (lit ".jpg", lit "image/jpeg"); (lit ".JPG", lit "image/jpeg");
   (lit ".jpeg", lit "image/jpeg"); (lit ".JPEG", lit "image/jpeg");
   (lit ".gif", lit "image/gif"); (lit ".GIF", lit "image/gif");
   (lit ".webp", lit "image/webp"); (lit ".WEBP", lit "image/webp")].

(** The zoom of the PDF rendering. *)
Definition zoom (v : Variant) : N :=
  match v with Anthropic => 2 | Groq => 3 end.

(** Two patterns that can end the same name: the reverse of the shorter
    begins the reverse of the longer. *)
Definition overlap (p q : str) : bool :=
  if (length p <=? length q)%nat
  then str_eqb (firstn (length p) (rev q)) (rev p)
  else str_eqb (firstn (length q) (rev p)) (rev q).

(** No two patterns of the list overlap. *)
Fixpoint exclusive (ps : list str) : bool :=
  match ps with
  | [] => true
  | p :: ps' => forallb (fun q => negb (overlap p q)) ps' && exclusive ps'
  end.

(** A text without white space at its ends. *)
Definition trimmed {U : UnicodeDB} (s : str) : Prop :=
  s = [] \/ (starts_clean s = true /\ ends_clean s = true).

(** [r] is a contiguous part of [t]. *)
Definition part_of (r t : str) : Prop := exists a b, t = a ++ r ++ b.

(** Whether a response of the registry parses and carries the success
    status code. *)
Definition success_status {X : Externals} (xml : str) : bool :=
  match fromstring xml with
  | Ok root =>
      match ET.find root (ET.ns (lit "status")) with
      | Some st => str_eqb (ET.get st (lit "statusCode") []) (lit "0")
      | None => false
      end
  | Raise _ => false
  end.

(** A working directory with the subdirectory [scans.pdf]. *)
Module Subdirectory.
Definition demo_subdirectory : Externals := {|
  image := bytes;
  json_loads := @json_loads Scenario.demo;
  fromstring := @fromstring Scenario.demo;
  b64encode := @b64encode Scenario.demo;
  fitz_first_page_png := @fitz_first_page_png Scenario.demo;
  image_open b := Ok b;
  image_mode_is_rgb _ := true;
  image_convert_rgb i := Ok i;
  enhance_contrast _ i := Ok i;
  enhance_sharpness _ i := Ok i;
  enhance_brightness _ i := Ok i;
  unsharp_mask _ _ _ i := Ok i;
  image_encode _ _ i := Ok i;
  vision_backend := @vision_backend Scenario.demo;
  registry_post := @registry_post Scenario.demo;
  io_fault op :=
    match op with
    | OpenRead p | OpenWrite p | Remove p => str_eqb p (lit "scans.pdf")
    | _ => false
    end;
  subdirs := {[ lit "scans.pdf" ]};
  subdirs_fault :=
    ltac:(intros p Hp; apply elem_of_singleton in Hp; subst p;
          repeat split; now apply bool_decide_eq_true_2)
|}.
End Subdirectory.

(** An environment whose image decoder rejects every file. *)
Module BadImages.
Definition demo_bad_images : Externals := {|
  image := bytes;
  json_loads := @json_loads Scenario.demo;
  fromstring := @fromstring Scenario.demo;
  b64encode := @b64encode Scenario.demo;
  fitz_first_page_png := @fitz_first_page_png Scenario.demo;
  image_open _ := Raise ImageError;
  image_mode_is_rgb _ := true;
  image_convert_rgb i := Ok i;
  enhance_contrast _ i := Ok i;
  enhance_sharpness _ i := Ok i;
  enhance_brightness _ i := Ok i;
  unsharp_mask _ _ _ i := Ok i;
  image_encode _ _ i := Ok i;
  vision_backend := @vision_backend Scenario.demo;
  registry_post := @registry_post Scenario.demo;
  io_fault _ := false;
  subdirs := ∅;
  subdirs_fault p H := match not_elem_of_empty p H with end
|}.
End BadImages.

Import Startup.

(** * Properties *)

Local Open Scope py_scope.

(** ** Basic facts *)

Lemma str_eqb_eq (a b : str) : str_eqb a b = true <-> a = b.
Proof. unfold str_eqb. apply bool_decide_eq_true. Qed.

Lemma str_eqb_neq (a b : str) : str_eqb a b = false <-> a <> b.
Proof. unfold str_eqb. apply bool_decide_eq_false. Qed.

Lemma str_eqb_refl (a : str) : str_eqb a a = true.
Proof. now apply str_eqb_eq. Qed.

(** A [try] whose handler returns never raises. *)
Lemma try_except_returns {A} (m : M A) (h : Exc -> M A) (w : World) :
  (forall e w1, exists a w2, h e w1 = (Ok a, w2)) ->
  exists a w', try_except m h w = (Ok a, w').
Proof.
  intros Hh. unfold try_except.
  destruct (m w) as [[a | e] w1]; [now exists a, w1 | apply Hh].
Qed.

(** ** The payer records of a response (Groq variant) *)

(** The loop over the records returns the value of the verdict of the first
    matching record and prints a line that states it. *)
Lemma groq_records_run (vat : str) (l : list ET.Element) (w : World) :
  let V := match matching_record l vat with
           | None => NotFound
           | Some r => classify_flag (ET.get r (lit "nespolehlivyPlatce") [])
           end in
  exists line,
    groq_records vat l w = (Ok (verdict_value V), add_stdout line w)
    /\ announced line = Some V.
Proof.
  induction l as [| r l IH]; cbn zeta.
  - exists (MsgNotInRecords vat). split; reflexivity.
  - unfold matching_record. cbn [groq_records List.find].
    destruct (str_eqb (ET.get r (lit "dic") []) vat) eqn:Hdic.
    + unfold classify_flag.
      destruct (str_eqb (ET.get r (lit "nespolehlivyPlatce") [])
                  (lit "NENALEZEN")) eqn:H1.
      { apply str_eqb_eq in H1. rewrite H1.
        exists (MsgNotInRegistry vat). split; reflexivity. }
      destruct (str_eqb (ET.get r (lit "nespolehlivyPlatce") [])
                  (lit "ANO")) eqn:H2.
      { exists (MsgUnreliable vat). split; reflexivity. }
      destruct (str_eqb (ET.get r (lit "nespolehlivyPlatce") []) (lit "NE")
                || str_eqb (ET.get r (lit "nespolehlivyPlatce") [] ) [])
        eqn:H3.
      { exists (MsgReliable vat). split; reflexivity. }
      exists (MsgUnknownStatus (ET.get r (lit "nespolehlivyPlatce") []) vat).
      split; reflexivity.
    + apply IH.
Qed.

(** The verdicts of [classify_records], case by case. *)
Lemma matching_record_none (records : list ET.Element) (body : str) :
  Forall (fun r => ET.get r (lit "dic") [] <> body) records ->
  matching_record records body = None.
Proof.
  unfold matching_record. induction 1 as [| r l Hr _ IH]; [reflexivity |].
  cbn [List.find]. apply str_eqb_neq in Hr. now rewrite Hr.
Qed.

Lemma classify_flag_cases (flag : str) :
  (flag = lit "ANO" -> classify_flag flag = Unreliable)
  /\ (flag = lit "NE" \/ flag = [] -> classify_flag flag = Reliable)
  /\ (flag = lit "NENALEZEN" -> classify_flag flag = NotFound)
  /\ (flag <> lit "ANO" -> flag <> lit "NE" -> flag <> [] ->
      flag <> lit "NENALEZEN" -> classify_flag flag = Reliable).
Proof.
  repeat split.
  - now intros ->.
  - now intros [-> | ->].
  - now intros ->.
  - intros H1 H2 H3 H4. unfold classify_flag.
    apply str_eqb_neq in H1, H2, H3, H4. now rewrite H1, H2, H3, H4.
Qed.

(** A response with the success status code, in the Groq variant. *)
Lemma groq_success_response {U : UnicodeDB} {X : Externals}
    (xml vat : str) (root status_elem : ET.Element) (w : World) :
  fromstring xml = Ok root ->
  ET.find root (ET.ns (lit "status")) = Some status_elem ->
  ET.get status_elem (lit "statusCode") [] = lit "0" ->
  let V := classify_records
             (ET.findall root (ET.ns (lit "statusPlatceDPH"))) vat in
  exists line,
    parse_vat_response Groq xml vat w
    = (Ok (verdict_value V), add_stdout line w)
    /\ announced line = Some V.
Proof.
  intros Hparse Hstatus Hcode V.
  unfold parse_vat_response, try_except, bind, lift.
  rewrite Hparse, Hstatus, Hcode, str_eqb_refl. subst V.
  destruct (ET.findall root (ET.ns (lit "statusPlatceDPH")))
    as [| r l] eqn:Hrec.
  - exists (MsgNotInRegistry vat). split; reflexivity.
  - destruct (groq_records_run vat (r :: l) w) as [line [Hrun Hline]].
    exists line. unfold classify_records. rewrite Hrun. now split.
Qed.

(** C1, as the code has it.  In the Groq variant
    ([invoice_extractor_groq.py], whose records carry the identifier and the
    flag as attributes), for every registry response that parses, holds a
    status element and has the success status code [0], and for every
    numeric body: [parse_vat_response] returns the value of the verdict of
    the payer records and prints a line stating that verdict, where the
    verdict is NotFound when the response has no [statusPlatceDPH] record at
    all, NotFound when it has records but none whose [dic] attribute is the
    body, and otherwise is read from the flag [nespolehlivyPlatce] of the
    matching record: ANO is Unreliable, NE or empty is Reliable, NENALEZEN
    is NotFound, any other value Reliable.  The Anthropic variant
    ([invoice_extractor.py]) looks for [StatusNespolehlivyPlatce] elements
    instead and returns [True] when the response has none. *)
Theorem C1_groq_payer_record_classification
    {U : UnicodeDB} {X : Externals}
    (xml vat : str) (root status_elem : ET.Element) (w : World) :
  fromstring xml = Ok root ->
  ET.find root (ET.ns (lit "status")) = Some status_elem ->
  ET.get status_elem (lit "statusCode") [] = lit "0" ->
  let records := ET.findall root (ET.ns (lit "statusPlatceDPH")) in
  let V := classify_records records vat in
  (exists line,
      parse_vat_response Groq xml vat w
      = (Ok (verdict_value V), add_stdout line w)
      /\ announced line = Some V)
  /\ (records = [] -> V = NotFound)
  /\ (records <> [] ->
      Forall (fun r => ET.get r (lit "dic") [] <> vat) records ->
      V = NotFound)
  /\ (forall r, matching_record records vat = Some r ->
      let flag := ET.get r (lit "nespolehlivyPlatce") [] in
      (flag = lit "ANO" -> V = Unreliable)
      /\ (flag = lit "NE" \/ flag = [] -> V = Reliable)
      /\ (flag = lit "NENALEZEN" -> V = NotFound)
      /\ (flag <> lit "ANO" -> flag <> lit "NE" -> flag <> [] ->
          flag <> lit "NENALEZEN" -> V = Reliable))
  /\ (ET.findall root (ET.ns (lit "StatusNespolehlivyPlatce")) = [] ->
      parse_vat_response Anthropic xml vat w = (Ok (Some true), w)).
Proof.
  intros Hparse Hstatus Hcode records V.
  split; [| split; [| split; [| split]]].
  - exact (groq_success_response xml vat root status_elem w
             Hparse Hstatus Hcode).
  - subst V. now intros ->.
  - subst V. intros Hne Hall. unfold classify_records.
    rewrite (matching_record_none _ _ Hall). now destruct records.
  - subst V. intros r Hr. unfold classify_records. rewrite Hr.
    destruct records; [discriminate |]. apply classify_flag_cases.
  - intros Hnone. unfold parse_vat_response, try_except, bind, lift.
    now rewrite Hparse, Hstatus, Hcode, str_eqb_refl, Hnone.
Qed.

(** The response [xml_ano] of the example registry classifies payer
    12345678 as unreliable. *)
Lemma C1_groq_payer_record_classification_witness :
  let records := ET.findall Scenario.root_ano (ET.ns (lit "statusPlatceDPH")) in
  (exists line,
      parse_vat_response (U := ascii_db) (X := Scenario.demo) Groq
        Scenario.xml_ano (lit "12345678") Scenario.empty_world
      = (Ok (Some false), add_stdout line Scenario.empty_world)
      /\ announced line = Some Unreliable)
  /\ classify_records records (lit "12345678") = Unreliable.
Proof.
  pose proof (C1_groq_payer_record_classification
                (U := ascii_db) (X := Scenario.demo)
                Scenario.xml_ano (lit "12345678") Scenario.root_ano
                Scenario.status_ok Scenario.empty_world
                eq_refl eq_refl eq_refl) as [Hrun _].
  split; [exact Hrun | reflexivity].
Defined.

(** C1, counterexample to the claim read on both variants.  The response
    [xml_empty] has the success status code and no record of any kind; the
    claim classifies it NotFound, which the check returns as [False].  The
    Anthropic variant returns [True], the value of Reliable, and prints
    nothing. *)
Lemma C1_anthropic_no_record_is_reliable :
  ET.findall Scenario.root_empty (ET.ns (lit "statusPlatceDPH")) = []
  /\ ET.findall Scenario.root_empty (ET.ns (lit "StatusNespolehlivyPlatce"))
     = []
  /\ classify_records [] (lit "87654321") = NotFound
  /\ parse_vat_response (U := ascii_db) (X := Scenario.demo) Anthropic
       Scenario.xml_empty (lit "87654321") Scenario.empty_world
     = (Ok (verdict_value Reliable), Scenario.empty_world)
  /\ verdict_value Reliable <> verdict_value NotFound.
Proof. vm_compute. repeat split; discriminate. Qed.

(** ** The reliability check *)

(** [parse_vat_response] returns in every case: both handlers print and
    return [None]. *)
Lemma parse_vat_response_returns {U : UnicodeDB} {X : Externals}
    (v : Variant) (xml vat : str) (w : World) :
  exists r w', parse_vat_response v xml vat w = (Ok r, w').
Proof.
  unfold parse_vat_response. apply try_except_returns.
  intros e w1. eexists _, _. reflexivity.
Qed.

(** A response that does not parse is reported and gives [None]. *)
Lemma parse_vat_response_parse_error {U : UnicodeDB} {X : Externals}
    (v : Variant) (xml vat : str) (e : Exc) (w : World) :
  fromstring xml = Raise e ->
  parse_vat_response v xml vat w
  = (Ok None,
     add_stdout (match e with
                 | ParseError => MsgXmlParseError e
                 | _ => MsgXmlProcessingError e
                 end) w).
Proof.
  intros H. unfold parse_vat_response, try_except, bind, lift. now rewrite H.
Qed.

(** The check on a string, path by path. *)
Lemma check_vat_reliability_run {U : UnicodeDB} {X : Externals}
    (v : Variant) (s : str) (w : World) :
  check_vat_reliability v (JStr s) w =
  if eligible s then
    match registry_post (request_for s) with
    | Raise e =>
        (Ok None,
         add_stdout (MsgErrorChecking e) (add_sent (request_for s) w))
    | Ok (status, response_text) =>
        if (status =? 200)%Z
        then parse_vat_response v response_text (vat_body s)
               (add_sent (request_for s) w)
        else (Ok None,
              add_stdout (MsgHttpError status) (add_sent (request_for s) w))
    end
  else (Ok None, w).
Proof.
  unfold check_vat_reliability, eligible, vat_body, normalized, slice_from.
  destruct s as [| c s]; [reflexivity |].
  cbn [truthy isinstance_str negb orb].
  set (clean := upper (remove_spaces (c :: s))).
  destruct (startswith clean (lit "CZ")); [| reflexivity].
  cbn [negb andb].
  destruct (isdigit (skipn 2 clean)); [| reflexivity].
  cbn [negb andb orb].
  destruct (Nat.ltb_spec (length (skipn 2 clean)) 8) as [Hlt | Hge].
  { destruct (Nat.leb_spec 8 (length (skipn 2 clean))); [lia | reflexivity]. }
  destruct (Nat.leb_spec 8 (length (skipn 2 clean))); [| lia].
  cbn [orb andb].
  destruct (Nat.ltb_spec 10 (length (skipn 2 clean))) as [Hgt | Hle].
  { destruct (Nat.leb_spec (length (skipn 2 clean)) 10); [lia | reflexivity]. }
  destruct (Nat.leb_spec (length (skipn 2 clean)) 10); [| lia].
  unfold try_except, bind, requests_post, request_for, vat_body, normalized.
  fold clean.
  destruct (registry_post _) as [[status response_text] | e]; [| reflexivity].
  destruct (status =? 200)%Z; [| reflexivity].
  destruct (parse_vat_response_returns v response_text (skipn 2 clean)
              (add_sent {| url := registry_url; soap_action := registry_action;
                           dic := skipn 2 clean; timeout := 10 |} w))
    as [r [w' Hr]].
  now rewrite Hr.
Qed.

(** An object that is not a string, and the empty string, end the check at
    once. *)
Lemma check_vat_reliability_not_str {U : UnicodeDB} {X : Externals}
    (v : Variant) (x : json) (w : World) :
  x = JStr [] \/ isinstance_str x = false ->
  check_vat_reliability v x w = (Ok None, w).
Proof.
  intros [-> | H]; [reflexivity |].
  unfold check_vat_reliability. now rewrite H, orb_true_r.
Qed.




(** An exception raised while the records are read is caught as well: in
    the Anthropic variant a matching record whose [nespolehlivy] element has
    no text makes [.lower()] fail on [None]; the handler reports it and the
    result is [None]. *)
Lemma anthropic_flag_without_text {U : UnicodeDB} {X : Externals}
    (xml : str) (w : World) :
  let record :=
    ET.mkElement (ET.ns (lit "StatusNespolehlivyPlatce")) ∅ None
      [ET.mkElement (ET.ns (lit "dic")) ∅ (Some (lit "12345678")) [];
       ET.mkElement (ET.ns (lit "nespolehlivy")) ∅ None []] in
  fromstring xml = Ok (Scenario.envelope [Scenario.status_ok; record]) ->
  parse_vat_response Anthropic xml (lit "12345678") w
  = (Ok None, add_stdout (MsgXmlProcessingError AttributeError) w).
Proof.
  intros record H. unfold parse_vat_response, try_except, bind, lift.
  now rewrite H.
Qed.

(** C10. [check_vat_reliability] of either variant returns for every
    argument and every behaviour of the registry and of the XML parser: it
    ends with [True], [False] or [None] and never raises.  For the empty
    string and for every object that is not a string it returns [None] at
    once, the world unchanged (no request).  When the request raises, and
    when the response does not parse, the exception is caught, reported and
    turned into [None]. *)
Theorem C10_check_vat_reliability_total {U : UnicodeDB} {X : Externals}
    (v : Variant) (vat_number : json) (w : World) :
  (exists (r : option bool) (w' : World),
      check_vat_reliability v vat_number w = (Ok r, w'))
  /\ (vat_number = JStr [] \/ isinstance_str vat_number = false ->
      check_vat_reliability v vat_number w = (Ok None, w))
  /\ (forall s e,
        vat_number = JStr s -> eligible s = true ->
        registry_post (request_for s) = Raise e ->
        check_vat_reliability v vat_number w
        = (Ok None,
           add_stdout (MsgErrorChecking e) (add_sent (request_for s) w)))
  /\ (forall s response_text e,
        vat_number = JStr s -> eligible s = true ->
        registry_post (request_for s) = Ok (200%Z, response_text) ->
        fromstring response_text = Raise e ->
        fst (check_vat_reliability v vat_number w) = Ok None).
Proof.
  split; [| split; [| split]].
  - destruct (isinstance_str vat_number) eqn:Hstr.
    + destruct vat_number as [| | | | s | |]; try discriminate.
      rewrite check_vat_reliability_run.
      destruct (eligible s); [| now eexists _, _].
      destruct (registry_post _) as [[status response_text] | e];
        [| now eexists _, _].
      destruct (status =? 200)%Z; [| now eexists _, _].
      apply parse_vat_response_returns.
    + rewrite check_vat_reliability_not_str by now right. now eexists _, _.
  - apply check_vat_reliability_not_str.
  - intros s e -> Hel Hpost.
    now rewrite check_vat_reliability_run, Hel, Hpost.
  - intros s response_text e -> Hel Hpost Hparse.
    rewrite check_vat_reliability_run, Hel, Hpost. cbn [Z.eqb Pos.eqb].
    now rewrite (parse_vat_response_parse_error _ _ _ e).
Qed.

(** ** The Groq variant follows the checker's state machine *)

Lemma groq_parse_refines {U : UnicodeDB} {X : Externals}
    (xml vat : str) (w : World) :
  exists w',
    parse_vat_response Groq xml vat w
    = (Ok (verdict_value (response_verdict xml vat)), w')
    /\ sent w' = sent w.
Proof.
  unfold response_verdict.
  destruct (fromstring xml) as [root | e] eqn:Hparse.
  - destruct (ET.find root (ET.ns (lit "status"))) as [st |] eqn:Hst.
    + destruct (str_eqb (ET.get st (lit "statusCode") []) (lit "0")) eqn:Hc.
      * apply str_eqb_eq in Hc.
        destruct (groq_success_response xml vat root st w Hparse Hst Hc)
          as [line [Hrun _]].
        rewrite Hrun. now eexists.
      * unfold parse_vat_response, try_except, bind, lift.
        rewrite Hparse, Hst, Hc. now eexists.
    + unfold parse_vat_response, try_except, bind, lift.
      rewrite Hparse, Hst. now eexists.
  - rewrite (parse_vat_response_parse_error _ _ _ e) by assumption.
    now eexists.
Qed.

Lemma groq_check_refines {U : UnicodeDB} {X : Externals}
    (s : str) (w : World) :
  fst (check_vat_reliability Groq (JStr s) w)
  = Ok (verdict_value (checker_verdict s)).
Proof.
  rewrite check_vat_reliability_run. unfold checker_verdict.
  destruct (eligible s); [| reflexivity]. cbn [negb].
  destruct (registry_post _) as [[status response_text] | e]; [| reflexivity].
  destruct (status =? 200)%Z; [| reflexivity]. cbn [negb].
  destruct (groq_parse_refines response_text (vat_body s)
              (add_sent (request_for s) w)) as [w' [Hrun _]].
  now rewrite Hrun.
Qed.

(** ** The field [reliable_VAT_payer] *)

(** Without an identifier (the key absent, or its value empty): the
    sentinel is set and the check is not run. *)
Lemma attach_without_vat {U : UnicodeDB} {X : Externals}
    (v : Variant) (d : gmap str json) (w : World) :
  d !! key_vat_number = None
  \/ (exists x, d !! key_vat_number = Some x /\ truthy x = false) ->
  attach_vat_reliability v (JDict d) w
  = (Ok (JDict (<[key_reliable := no_vat_number_found]> d)),
     add_stdout MsgNoVatNumber w).
Proof.
  intros [Hnone | [x [Hx Hfalsy]]];
    unfold attach_vat_reliability, bind, lift, contains, getitem, setitem, ret.
  - rewrite Hnone. rewrite bool_decide_eq_false_2; [reflexivity |].
    intros [y Hy]. discriminate.
  - rewrite Hx. rewrite bool_decide_eq_true_2 by eauto.
    now rewrite Hfalsy.
Qed.

(** With an identifier: the check is run on it and its result is stored,
    [True] and [False] as booleans, [None] as the sentinel. *)
Lemma attach_with_vat {U : UnicodeDB} {X : Externals}
    (v : Variant) (d : gmap str json) (x : json) (w : World) :
  d !! key_vat_number = Some x -> truthy x = true ->
  exists r w1,
    check_vat_reliability v x (add_stdout (MsgCheckingVat x) w) = (Ok r, w1)
    /\ attach_vat_reliability v (JDict d) w
       = (Ok (JDict (<[key_reliable := field_of_result r]> d)),
          add_stdout (match r with
                      | Some b => MsgCheckResult b
                      | None => MsgNotDetermined
                      end) w1).
Proof.
  intros Hx Htruthy.
  destruct (isinstance_str x) eqn:Hstr.
  - destruct x as [| | | | s | |]; try discriminate.
    assert (Hret : exists r w1,
               check_vat_reliability v (JStr s)
                 (add_stdout (MsgCheckingVat (JStr s)) w) = (Ok r, w1)).
    { rewrite check_vat_reliability_run.
      destruct (eligible s); [| now eexists _, _].
      destruct (registry_post _) as [[status response_text] | e];
        [| now eexists _, _].
      destruct (status =? 200)%Z; [| now eexists _, _].
      apply parse_vat_response_returns. }
    destruct Hret as [r [w1 Hrun]]. exists r, w1. split; [exact Hrun |].
    unfold attach_vat_reliability, bind, lift, contains, getitem, setitem,
      ret, print.
    rewrite Hx. rewrite bool_decide_eq_true_2 by eauto.
    rewrite Htruthy. unfold print. rewrite Hrun. now destruct r.
  - exists None, (add_stdout (MsgCheckingVat x) w).
    assert (Hrun := check_vat_reliability_not_str v x
                      (add_stdout (MsgCheckingVat x) w) (or_intror Hstr)).
    split; [exact Hrun |].
    unfold attach_vat_reliability, bind, lift, contains, getitem, setitem,
      ret, print.
    rewrite Hx. rewrite bool_decide_eq_true_2 by eauto.
    rewrite Htruthy. unfold print. now rewrite Hrun.
Qed.

Lemma field_of_verdict_value (V : Verdict) :
  V <> NoVATNumber -> field_of_verdict V = field_of_result (verdict_value V).
Proof. now destruct V. Qed.

Lemma checker_verdict_not_NoVATNumber {U : UnicodeDB} {X : Externals}
    (s : str) : checker_verdict s <> NoVATNumber.
Proof.
  unfold checker_verdict, response_verdict, classify_records, classify_flag.
  repeat match goal with
         | |- context [match ?c with _ => _ end] => destruct c
         end; discriminate.
Qed.

(** C2, as the code has it.  For every parsed record and either variant:
    when [vat_number] is absent or empty the field [reliable_VAT_payer] is
    set to the sentinel "No VAT number found" and no check is run (the world
    only gains the printed line); otherwise, for an identifier that standard
    output can encode (a string with a lone surrogate makes the [print]
    before the check raise, and the invoice has no record), the check is
    run and the field is boolean true when it returns [True], boolean false
    when it returns [False] and the sentinel "Unable to verify" when it
    returns [None].  In the Groq variant, and in that variant only, this
    sets the field by the verdict of the checker: Reliable is true,
    Unreliable is false, NotFound is false as well, ServiceUnavailable and
    Ineligible are "Unable to verify". *)
Theorem C2_reliable_VAT_payer_by_verdict {U : UnicodeDB} {X : Externals}
    (v : Variant) (d : gmap str json) (w : World) :
  (d !! key_vat_number = None
   \/ (exists x, d !! key_vat_number = Some x /\ truthy x = false) ->
   record_verdict d = NoVATNumber
   /\ attach_vat_reliability v (JDict d) w
      = (Ok (JDict (<[key_reliable := no_vat_number_found]> d)),
         add_stdout MsgNoVatNumber w))
  /\ (forall x, d !! key_vat_number = Some x -> truthy x = true ->
      printable x = true ->
      exists r w1,
        check_vat_reliability v x (add_stdout (MsgCheckingVat x) w)
        = (Ok r, w1)
        /\ attach_vat_reliability v (JDict d) w
           = (Ok (JDict (<[key_reliable := field_of_result r]> d)),
              add_stdout (match r with
                          | Some b => MsgCheckResult b
                          | None => MsgNotDetermined
                          end) w1))
  /\ ((forall x, d !! key_vat_number = Some x -> truthy x = true ->
       printable x = true) ->
      fst (attach_vat_reliability Groq (JDict d) w)
      = Ok (JDict (<[key_reliable := field_of_verdict (record_verdict d)]> d)))
  /\ field_of_verdict Reliable = JBool true
  /\ field_of_verdict Unreliable = JBool false
  /\ field_of_verdict NotFound = JBool false
  /\ field_of_verdict ServiceUnavailable = JStr (lit "Unable to verify")
  /\ field_of_verdict Ineligible = JStr (lit "Unable to verify")
  /\ field_of_verdict NoVATNumber = JStr (lit "No VAT number found").
Proof.
  split; [| split; [| split; [| repeat split]]].
  - intros H. split; [| now apply attach_without_vat].
    unfold record_verdict. destruct H as [-> | [x [-> ->]]]; reflexivity.
  - intros x Hx Htruthy _. exact (attach_with_vat v d x w Hx Htruthy).
  - intros _. unfold record_verdict.
    destruct (d !! key_vat_number) as [x |] eqn:Hx.
    + destruct (truthy x) eqn:Htruthy.
      * destruct (attach_with_vat Groq d x w Hx Htruthy)
          as [r [w1 [Hcheck Hattach]]].
        rewrite Hattach. cbn [fst]. do 3 f_equal.
        destruct (isinstance_str x) eqn:Hstr.
        -- destruct x as [| | | | s | |]; try discriminate.
           rewrite field_of_verdict_value
             by apply checker_verdict_not_NoVATNumber.
           pose proof (groq_check_refines s
                         (add_stdout (MsgCheckingVat (JStr s)) w)) as Href.
           rewrite Hcheck in Href. cbn [fst] in Href.
           now injection Href as ->.
        -- rewrite check_vat_reliability_not_str in Hcheck by now right.
           injection Hcheck as <- _.
           now destruct x.
      * rewrite attach_without_vat by eauto. reflexivity.
    + rewrite attach_without_vat by now left. reflexivity.
Qed.

(** C2, counterexample to the claim as stated (NotFound gives a sentinel
    string).  The record names payer CZ87654321, for whom the registry
    answers with the success status and no record at all: the verdict is
    NotFound, and the Groq variant sets [reliable_VAT_payer] to the boolean
    false, which is not a string. *)
Lemma C2_not_found_sets_boolean_false :
  record_verdict (U := ascii_db) (X := Scenario.demo)
    Scenario.data_unknown_payer = NotFound
  /\ fst (attach_vat_reliability (U := ascii_db) (X := Scenario.demo) Groq
            (JDict Scenario.data_unknown_payer) Scenario.empty_world)
     = Ok (JDict (<[key_reliable := JBool false]> Scenario.data_unknown_payer))
  /\ isinstance_str (JBool false) = false.
Proof. vm_compute. repeat split; reflexivity. Qed.

(** ** The two readings of a registry response *)

(** On the response [root_ano] the Anthropic variant finds no
    [StatusNespolehlivyPlatce] element and assumes a reliable payer; the
    Groq variant reads the record's flag. *)
Lemma anthropic_on_root_ano {U : UnicodeDB} {X : Externals}
    (xml : str) (w : World) :
  fromstring xml = Ok Scenario.root_ano ->
  parse_vat_response Anthropic xml (lit "12345678") w = (Ok (Some true), w).
Proof.
  intros H. unfold parse_vat_response, try_except, bind, lift. now rewrite H.
Qed.

Lemma groq_on_root_ano {U : UnicodeDB} {X : Externals}
    (xml : str) (w : World) :
  fromstring xml = Ok Scenario.root_ano ->
  parse_vat_response Groq xml (lit "12345678") w
  = (Ok (Some false), add_stdout (MsgUnreliable (lit "12345678")) w).
Proof.
  intros H. unfold parse_vat_response, try_except, bind, lift. now rewrite H.
Qed.

(** C5. There is a registry response (success status, one record: payer
    12345678 with flag ANO) and a body (12345678) on which the two
    [parse_vat_response] functions return different verdicts, whatever text
    the response is written in: the Anthropic variant, which looks for
    [StatusNespolehlivyPlatce] elements and their text nodes, returns [True];
    the Groq variant, which reads the attributes of [statusPlatceDPH],
    returns [False].  So the two functions are not extensionally equal. *)
Theorem C5_variants_disagree :
  exists (root : ET.Element) (vat : str),
    (forall (U : UnicodeDB) (X : Externals) (xml : str) (w : World),
        fromstring xml = Ok root ->
        fst (parse_vat_response Anthropic xml vat w) = Ok (Some true)
        /\ fst (parse_vat_response Groq xml vat w) = Ok (Some false))
    /\ (forall (U : UnicodeDB) (X : Externals),
           (exists xml, fromstring xml = Ok root) ->
           parse_vat_response Anthropic <> parse_vat_response Groq)
    /\ fromstring (Externals := Scenario.demo) Scenario.xml_ano = Ok root.
Proof.
  exists Scenario.root_ano, (lit "12345678"). split; [| split].
  - intros U X xml w H.
    now rewrite anthropic_on_root_ano, groq_on_root_ano.
  - intros U X [xml H] Heq.
    assert (Hrun : parse_vat_response Anthropic xml (lit "12345678")
                     Scenario.empty_world
                   = parse_vat_response Groq xml (lit "12345678")
                       Scenario.empty_world) by now rewrite Heq.
    rewrite anthropic_on_root_ano, groq_on_root_ano in Hrun by assumption.
    discriminate.
  - reflexivity.
Qed.

(** ** Cleaning the backend's text *)

Section Strip.
Context {U : UnicodeDB}.

Lemma lstrip_spaces (ws s : str) :
  forallb isspace_char ws = true -> lstrip (ws ++ s) = lstrip s.
Proof.
  induction ws as [| c ws IH]; [reflexivity |]. cbn [forallb app lstrip].
  intros [Hc Hws]%andb_true_iff. rewrite Hc. auto.
Qed.

Lemma lstrip_clean (s : str) : starts_clean s = true -> lstrip s = s.
Proof.
  unfold starts_clean. destruct s as [| c s]; [discriminate |].
  cbn. now destruct (isspace_char c).
Qed.

Lemma head_rev (s : str) : head (rev s) = last s.
Proof.
  induction s as [| c s IH] using rev_ind; [reflexivity |].
  now rewrite rev_app_distr, last_snoc.
Qed.

Lemma forallb_rev_true (f : char -> bool) (l : str) :
  forallb f l = true -> forallb f (rev l) = true.
Proof.
  induction l as [| c l IH]; [easy |]. cbn [forallb].
  intros [Hc Hl]%andb_true_iff.
  change (rev (c :: l)) with (rev l ++ [c]).
  rewrite forallb_app, (IH Hl). cbn. now rewrite Hc.
Qed.

Lemma rstrip_spaces (s ws : str) :
  forallb isspace_char ws = true -> rstrip (s ++ ws) = rstrip s.
Proof.
  intros H. unfold rstrip. rewrite rev_app_distr, lstrip_spaces; [easy |].
  now apply forallb_rev_true.
Qed.

Lemma rstrip_clean (s : str) : ends_clean s = true -> rstrip s = s.
Proof.
  unfold ends_clean, rstrip. intros H. rewrite lstrip_clean.
  - apply rev_involutive.
  - unfold starts_clean. now rewrite head_rev.
Qed.

Lemma starts_clean_app (s t : str) :
  starts_clean s = true -> starts_clean (s ++ t) = true.
Proof. unfold starts_clean. now destruct s. Qed.

Lemma strip_between (w0 s w3 : str) :
  forallb isspace_char w0 = true -> forallb isspace_char w3 = true ->
  starts_clean s = true -> ends_clean s = true ->
  strip (w0 ++ s ++ w3) = s.
Proof.
  intros H0 H3 Hs He. unfold strip.
  rewrite lstrip_spaces by assumption.
  rewrite lstrip_clean by now apply starts_clean_app.
  rewrite rstrip_spaces by assumption. now apply rstrip_clean.
Qed.
End Strip.

Lemma startswith_app (p s : str) : startswith (p ++ s) p = true.
Proof. induction p as [| c p IH]; [reflexivity |]. cbn. now rewrite N.eqb_refl. Qed.

Lemma endswith_app (s p : str) : endswith (s ++ p) p = true.
Proof. unfold endswith. rewrite rev_app_distr. apply startswith_app. Qed.

Lemma slice_to_minus_app (s p : str) : slice_to_minus (length p) (s ++ p) = s.
Proof.
  unfold slice_to_minus. rewrite length_app, Nat.add_sub.
  apply take_app_length.
Qed.

Lemma startswith_head (s p : str) (c d : char) :
  head s = Some c -> head p = Some d -> c <> d -> startswith s p = false.
Proof.
  destruct s, p; try discriminate. cbn. intros [= ->] [= ->] H.
  apply N.eqb_neq in H. rewrite N.eqb_sym in H. now rewrite H.
Qed.

Lemma endswith_last (s p : str) (c d : char) :
  last s = Some c -> last p = Some d -> c <> d -> endswith s p = false.
Proof.
  intros Hs Hp H. unfold endswith.
  apply (startswith_head _ _ c d); [now rewrite head_rev | now rewrite head_rev | easy].
Qed.

Section Fences.
Context {U : UnicodeDB}.

Lemma object_clean (inner : str) :
  starts_clean (lit "{" ++ inner ++ lit "}") = true
  /\ ends_clean (lit "{" ++ inner ++ lit "}") = true.
Proof.
  split; [reflexivity |]. unfold ends_clean.
  change (lit "{" ++ inner ++ lit "}") with ((123 :: inner) ++ [125]).
  now rewrite last_snoc.
Qed.

Lemma clean_fenced_object (inner w0 w1 w2 w3 : str) (lead trail : bool) :
  forallb isspace_char w0 = true -> forallb isspace_char w1 = true ->
  forallb isspace_char w2 = true -> forallb isspace_char w3 = true ->
  clean_response_text
    (w0 ++ (if lead then fence_json ++ w1 else [])
        ++ (lit "{" ++ inner ++ lit "}")
        ++ (if trail then w2 ++ fence else []) ++ w3)
  = lit "{" ++ inner ++ lit "}".
Proof.
  intros H0 H1 H2 H3.
  destruct (object_clean inner) as [Hs He].
  set (j := lit "{" ++ inner ++ lit "}") in *.
  assert (Hlast : last j = Some 125).
  { subst j. change (lit "{" ++ inner ++ lit "}") with ((123 :: inner) ++ [125]).
    apply last_snoc. }
  assert (Hhead : head j = Some 123) by reflexivity.
  unfold clean_response_text.
  set (body := (if lead then fence_json ++ w1 else [])
                 ++ j ++ (if trail then w2 ++ fence else [])).
  replace (w0 ++ (if lead then fence_json ++ w1 else []) ++ j
              ++ (if trail then w2 ++ fence else []) ++ w3)
    with (w0 ++ body ++ w3)
    by (subst body; now rewrite <- ?List.app_assoc).
  rewrite strip_between; try assumption.
  2: { subst body. destruct lead; [reflexivity |].
       cbn [app]. now apply starts_clean_app. }
  2: { subst body. unfold ends_clean. rewrite !last_app.
       destruct trail; [now rewrite last_app |]. cbn [last]. now rewrite Hlast. }
  set (t := (if lead then w1 else []) ++ j
              ++ (if trail then w2 ++ fence else [])).
  assert (Hstep1 : (if startswith body fence_json
                    then slice_from 7 body else body) = t).
  { subst body t. destruct lead.
    - rewrite <- List.app_assoc, startswith_app. reflexivity.
    - cbn [app].
      now rewrite (startswith_head _ _ 123 96)
        by first [reflexivity | discriminate]. }
  rewrite Hstep1.
  set (u := (if lead then w1 else []) ++ j ++ (if trail then w2 else [])).
  assert (Hstep2 : (if endswith t fence
                    then slice_to_minus 3 t else t) = u).
  { subst t u. destruct trail.
    - replace ((if lead then w1 else []) ++ j ++ w2 ++ fence)
        with (((if lead then w1 else []) ++ j ++ w2) ++ fence)
        by now rewrite <- ?List.app_assoc.
      rewrite endswith_app.
      change 3%nat with (length fence). apply slice_to_minus_app.
    - rewrite (endswith_last _ _ 125 96);
        [now rewrite List.app_nil_r | | reflexivity | discriminate].
      rewrite !last_app. cbn [last]. now rewrite Hlast. }
  rewrite Hstep2. subst u.
  apply strip_between; try assumption.
  - now destruct lead.
  - now destruct trail.
Qed.
End Fences.

(** C7, as the code has it.  For every JSON object text [{...}], optionally
    preceded by the leading marker [```json] (this marker exactly) and
    optionally followed by the trailing marker [```], with any white space
    around the markers and the object: the clean-up of [process_invoice]
    yields the object text alone, which is what it yields for the unfenced
    object, so [json.loads] receives the same text and both forms give the
    same result in the same world. *)
Theorem C7_json_fence_stripped {U : UnicodeDB} {X : Externals}
    (v : Variant) (inner w0 w1 w2 w3 : str) (lead trail : bool) (w : World) :
  forallb isspace_char (w0 ++ w1 ++ w2 ++ w3) = true ->
  let j := lit "{" ++ inner ++ lit "}" in
  let raw := w0 ++ (if lead then fence_json ++ w1 else []) ++ j
                ++ (if trail then w2 ++ fence else []) ++ w3 in
  clean_response_text raw = j
  /\ clean_response_text j = j
  /\ parse_response v raw w = parse_response v j w.
Proof.
  intros Hws j raw.
  rewrite !forallb_app in Hws.
  apply andb_true_iff in Hws as [H0 Hws].
  apply andb_true_iff in Hws as [H1 Hws].
  apply andb_true_iff in Hws as [H2 H3].
  assert (Hraw : clean_response_text raw = j)
    by now apply clean_fenced_object.
  assert (Hj : clean_response_text j = j).
  { pose proof (clean_fenced_object inner [] [] [] [] false false
                  eq_refl eq_refl eq_refl eq_refl) as H.
    cbn [app] in H. now rewrite List.app_nil_r in H. }
  repeat split; try assumption.
  unfold parse_response. now rewrite Hraw, Hj.
Qed.

(** The object [{'supplier_name': 'ACME s.r.o.'}] in a fence on lines of its
    own. *)
Lemma C7_json_fence_stripped_witness :
  let j := Scenario.text_supplier_only in
  let raw := fence_json ++ [10] ++ j ++ [10] ++ fence in
  clean_response_text (U := ascii_db) raw = j
  /\ clean_response_text (U := ascii_db) j = j
  /\ parse_response (U := ascii_db) (X := Scenario.demo) Anthropic raw
       Scenario.empty_world
     = parse_response (U := ascii_db) (X := Scenario.demo) Anthropic j
         Scenario.empty_world.
Proof.
  apply (C7_json_fence_stripped (U := ascii_db) (X := Scenario.demo)
           Anthropic (removelast (tail Scenario.text_supplier_only))
           [] [10] [10] [] true true Scenario.empty_world).
  reflexivity.
Defined.

(** C7, counterexample to the claim as stated (an optional language tag).
    With a bare fence, a triple backtick and no tag, the leading marker is
    not removed: the text handed to [json.loads] still begins with the fence,
    and in the example environment the fenced object gives no record where
    the unfenced object gives one. *)
Lemma C7_bare_fence_not_stripped :
  let j := Scenario.text_supplier_only in
  let raw := fence ++ [10] ++ j ++ [10] ++ fence in
  clean_response_text (U := ascii_db) raw = fence ++ [10] ++ j
  /\ fst (parse_response (U := ascii_db) (X := Scenario.demo) Anthropic raw
            Scenario.empty_world) = Ok None
  /\ fst (parse_response (U := ascii_db) (X := Scenario.demo) Anthropic j
            Scenario.empty_world)
     = Ok (Some (JDict (<[key_reliable := no_vat_number_found]>
                          Scenario.data_supplier_only))).
Proof. vm_compute. repeat split; reflexivity. Qed.

(** ** The response parser inside [process_invoice] *)

Section Parser.
Context {U : UnicodeDB} {X : Externals}.

(** An object that is not a [dict] makes the statements after
    [json.loads] raise [TypeError], before anything is printed. *)
Lemma attach_not_dict (v : Variant) (x : json) (w : World) :
  (forall d, x <> JDict d) ->
  attach_vat_reliability v x w = (Raise TypeError, w).
Proof.
  intros Hx. unfold attach_vat_reliability, bind, lift, ret.
  destruct x as [| b | z | f | s | l | d]; try reflexivity.
  - cbn [contains getitem setitem]. now destruct (is_substring _ _).
  - cbn [contains getitem setitem]. now destruct (existsb _ _).
  - now destruct (Hx d).
Qed.

(** A [dict] gets the key [reliable_VAT_payer] and is returned. *)
Lemma attach_dict (v : Variant) (d : gmap str json) (w : World) :
  exists val w',
    attach_vat_reliability v (JDict d) w
    = (Ok (JDict (<[key_reliable := val]> d)), w').
Proof.
  destruct (d !! key_vat_number) as [x |] eqn:Hx.
  - destruct (truthy x) eqn:Htruthy.
    + destruct (attach_with_vat v d x w Hx Htruthy) as [r [w1 [_ H]]].
      rewrite H. now eexists _, _.
    + rewrite attach_without_vat by eauto. now eexists _, _.
  - rewrite attach_without_vat by now left. now eexists _, _.
Qed.

(** [process_invoice] once the image is encoded and the backend has
    answered: what remains is the parser under the outer handler. *)
Lemma process_invoice_run (v : Variant) (file_path : str) (w w1 : World)
    (encoded_image media_type text : str) :
  normalize v file_path (add_stdout (MsgProcessing file_path) w)
  = (Ok (encoded_image, media_type), w1) ->
  vision_backend v media_type encoded_image = Ok text ->
  process_invoice v file_path w
  = try_except (parse_response v text)
      (fun e => print (MsgErrorProcessingInvoice e) ;;; ret None) w1.
Proof.
  intros Hnorm Hback. unfold process_invoice, bind, print.
  rewrite Hnorm. unfold try_except, bind, lift. now rewrite Hback.
Qed.
End Parser.

(** C6, as the code has it.  For every file name that standard output can
    encode and every raw backend text, with [t] its fence-stripped, trimmed
    form: [process_invoice] produces no record (returns [None]) when
    [json.loads t] raises or yields an object that is not a mapping, and
    produces the record when it yields a mapping whose [vat_number] standard
    output can encode (an identifier with a lone surrogate makes the [print]
    before the check raise inside the [try], and there is no record
    either).  The text [t] is printed with the failure only when
    [json.loads] raises [JSONDecodeError], provided it can be encoded; when
    the parsed object is not a mapping (or [json.loads] raises another
    exception) the only line printed is the message of the exception. *)
Theorem C6_response_parser_failures {U : UnicodeDB} {X : Externals}
    (v : Variant) (file_path : str) (w w1 : World)
    (encoded_image media_type text : str) :
  encodable file_path = true ->
  normalize v file_path (add_stdout (MsgProcessing file_path) w)
  = (Ok (encoded_image, media_type), w1) ->
  vision_backend v media_type encoded_image = Ok text ->
  let t := clean_response_text text in
  (json_loads t = Raise JSONDecodeError -> encodable t = true ->
   process_invoice v file_path w
   = (Ok None,
      add_stdout (MsgResponseText t)
        (add_stdout (MsgJsonError JSONDecodeError) w1)))
  /\ (forall e, json_loads t = Raise e -> e <> JSONDecodeError ->
      process_invoice v file_path w
      = (Ok None, add_stdout (MsgErrorProcessingInvoice e) w1))
  /\ (forall x, json_loads t = Ok x -> (forall d, x <> JDict d) ->
      process_invoice v file_path w
      = (Ok None, add_stdout (MsgErrorProcessingInvoice TypeError) w1))
  /\ (forall d, json_loads t = Ok (JDict d) ->
      (forall x, d !! key_vat_number = Some x -> truthy x = true ->
                 printable x = true) ->
      exists val w2,
        process_invoice v file_path w
        = (Ok (Some (JDict (<[key_reliable := val]> d))), w2)).
Proof.
  intros _ Hnorm Hback t.
  rewrite (process_invoice_run v file_path w w1 _ _ _ Hnorm Hback).
  unfold try_except, parse_response, try_except_of, bind, lift. fold t.
  split; [| split; [| split]].
  - intros -> _. reflexivity.
  - intros e -> He. now destruct e.
  - intros x -> Hx. now rewrite attach_not_dict.
  - intros d -> _. destruct (attach_dict v d w1) as [val [w2 H]].
    rewrite H. now eexists _, _.
Qed.

(** The image [a.png], for which the example backend answers with the
    object [{'supplier_name': 'ACME s.r.o.'}]. *)
Lemma C6_response_parser_failures_witness :
  exists val w2,
    process_invoice (U := ascii_db) (X := Scenario.demo) Anthropic
      (lit "a.png") (Scenario.world [(lit "a.png", Scenario.png_a)])
    = (Ok (Some (JDict (<[key_reliable := val]> Scenario.data_supplier_only))),
       w2).
Proof.
  destruct (C6_response_parser_failures (U := ascii_db) (X := Scenario.demo)
              Anthropic (lit "a.png")
              (Scenario.world [(lit "a.png", Scenario.png_a)])
              _ _ _ _ eq_refl eq_refl eq_refl) as (_ & _ & _ & H).
  apply (H Scenario.data_supplier_only eq_refl).
  intros x Hx. vm_compute in Hx. discriminate.
Defined.

(** C6, counterexample to the claim as stated (the raw text is retained in
    every failure).  For the image [d.png] the example backend answers [[]],
    which [json.loads] parses to the empty list, not a mapping:
    [process_invoice] returns [None] and the lines printed are the
    announcement of the file and the message of the [TypeError]; the
    response text is in neither. *)
Lemma C6_list_response_text_not_retained :
  let run := process_invoice (U := ascii_db) (X := Scenario.demo) Anthropic
               (lit "d.png") (Scenario.world [(lit "d.png", Scenario.png_d)]) in
  json_loads (Externals := Scenario.demo)
    (clean_response_text (U := ascii_db) Scenario.text_list) = Ok (JList [])
  /\ fst run = Ok None
  /\ stdout (snd run)
     = [MsgProcessing (lit "d.png"); MsgErrorProcessingInvoice TypeError].
Proof. vm_compute. repeat split; reflexivity. Qed.

(** ** What is persisted *)

Section Persisted.
Context {U : UnicodeDB} {X : Externals}.

(** A record returned by [process_invoice] is the object parsed from the
    backend's text, with the key [reliable_VAT_payer] set. *)
Lemma process_invoice_record (v : Variant) (file_path : str)
    (w w1 : World) (data : json) :
  process_invoice v file_path w = (Ok (Some data), w1) ->
  exists (d : gmap str json) (val : json) (media_type encoded_image text : str),
    vision_backend v media_type encoded_image = Ok text
    /\ json_loads (clean_response_text text) = Ok (JDict d)
    /\ data = JDict (<[key_reliable := val]> d).
Proof.
  unfold process_invoice, bind, print.
  destruct (normalize v file_path _) as [[[encoded_image media_type] | e] w0];
    [| discriminate].
  unfold try_except, bind, lift.
  destruct (vision_backend v media_type encoded_image) as [text | e] eqn:Hback;
    [| discriminate].
  unfold parse_response, try_except_of, bind, lift.
  destruct (json_loads (clean_response_text text)) as [x | e] eqn:Hloads.
  - destruct x as [| b | z | f | s | l | d];
      try (rewrite attach_not_dict by discriminate; discriminate).
    destruct (attach_dict v d w0) as [val [w2 Hattach]].
    rewrite Hattach. intros [= <- _].
    now exists d, val, media_type, encoded_image, text.
  - destruct (is_JSONDecodeError e); discriminate.
Qed.

(** [save_results], when the output file can be written. *)
Lemma save_results_run (data : json) (name : str) (w : World) :
  io_fault (OpenWrite (output_filename name)) = false ->
  io_fault (WriteData (output_filename name)) = false ->
  save_results data name w
  = (Ok tt,
     add_stdout (MsgSaved (output_filename name))
       (set_outputs (insert (output_filename name) data) w)).
Proof.
  intros H1 H2. unfold save_results, bind, print. now rewrite H1, H2.
Qed.
End Persisted.

(** C3, as the code has it.  For every document that [process_invoice]
    turns into a record: the record is the object parsed from the cleaned
    text of the backend's response with the key [reliable_VAT_payer] set, so its keys are the
    keys of that object together with [reliable_VAT_payer], whatever they
    are; it has exactly the twelve keys of an invoice record if and only if
    the backend's object has the other eleven and no key outside the twelve.
    When the output file can be written, this record is what the loop body
    persists under the output name. *)
Theorem C3_persisted_keys {U : UnicodeDB} {X : Externals}
    (v : Variant) (file_path : str) (w w1 : World) (data : json) :
  process_invoice v file_path w = (Ok (Some data), w1) ->
  exists (d : gmap str json) (val : json) (media_type encoded_image text : str),
    vision_backend v media_type encoded_image = Ok text
    /\ json_loads (clean_response_text text) = Ok (JDict d)
    /\ data = JDict (<[key_reliable := val]> d)
    /\ dom (<[key_reliable := val]> d) = dom d ∪ {[key_reliable]}
    /\ (dom (<[key_reliable := val]> d) = record_keys
        <-> record_keys ∖ {[key_reliable]} ⊆ dom d /\ dom d ⊆ record_keys)
    /\ (io_fault (OpenWrite (output_filename file_path)) = false ->
        io_fault (WriteData (output_filename file_path)) = false ->
        exists w2,
          process_one v file_path w = (Ok tt, w2)
          /\ outputs w2 = <[output_filename file_path := data]> (outputs w1)).
Proof.
  intros Hrun.
  destruct (process_invoice_record v file_path w w1 data Hrun)
    as (d & val & media_type & encoded_image & text & Hback & Hloads & ->).
  exists d, val, media_type, encoded_image, text.
  assert (Hin : key_reliable ∈ record_keys) by (vm_compute; set_solver).
  split; [exact Hback |]. split; [exact Hloads |]. split; [reflexivity |].
  split; [rewrite dom_insert_L; set_solver |].
  split.
  - rewrite dom_insert_L. split.
    + intros Heq. rewrite <- Heq. split; set_solver.
    + intros [H1 H2]. apply set_eq. intros k.
      rewrite elem_of_union, elem_of_singleton. split.
      * intros [-> | Hk]; [exact Hin | exact (H2 k Hk)].
      * intros Hk. destruct (decide (k = key_reliable)) as [-> | Hne];
          [now left | right].
        apply H1, elem_of_difference. split; [exact Hk |].
        now rewrite elem_of_singleton.
  - intros Hopen Hwrite. unfold process_one, bind. rewrite Hrun.
    cbn [truthy].
    rewrite bool_decide_eq_false_2 by apply insert_non_empty.
    cbn [negb]. rewrite save_results_run by assumption.
    eexists. split; reflexivity.
Qed.

(** The image [a.png] of the example: a record of two keys is returned and
    persisted. *)
Lemma C3_persisted_keys_witness :
  exists (d : gmap str json) (val : json),
    dom (<[key_reliable := val]> d) = dom d ∪ {[key_reliable]}
    /\ outputs (snd (process_one (U := ascii_db) (X := Scenario.demo) Anthropic
                       (lit "a.png")
                       (Scenario.world [(lit "a.png", Scenario.png_a)])))
         !! lit "a_extracted.json"
       = Some (JDict (<[key_reliable := val]> d)).
Proof.
  destruct (C3_persisted_keys (U := ascii_db) (X := Scenario.demo) Anthropic
              (lit "a.png") (Scenario.world [(lit "a.png", Scenario.png_a)])
              _ _ eq_refl)
    as (d & val & _ & _ & _ & _ & _ & Hdata & Hdom & _ & Hsave).
  destruct (Hsave eq_refl eq_refl) as (w2 & Hone & Hout).
  exists d, val. split; [exact Hdom |].
  rewrite Hone. cbn [snd]. rewrite Hout, <- Hdata.
  apply lookup_insert_eq.
Defined.

(** C3, counterexample to the claim as stated (exactly the twelve keys for
    every response that reaches persistence).  The example backend answers
    for [a.png] with an object of the single key [supplier_name]; the batch
    persists it with [reliable_VAT_payer] added: two keys, not twelve. *)
Lemma C3_two_keys_persisted :
  let persisted :=
    <[key_reliable := no_vat_number_found]> Scenario.data_supplier_only in
  outputs (snd (process_files (U := ascii_db) (X := Scenario.demo) Anthropic
                  [lit "a.png"]
                  (Scenario.world [(lit "a.png", Scenario.png_a)])))
    !! lit "a_extracted.json" = Some (JDict persisted)
  /\ dom persisted = {[ lit "supplier_name"; lit "reliable_VAT_payer" ]}
  /\ size (dom persisted) = 2%nat
  /\ size record_keys = 12%nat.
Proof. cbv zeta. repeat split; vm_compute; reflexivity. Qed.

(** ** The batch and a document that cannot be normalized *)

(** An exception that leaves the loop body ends the loop: the files after
    it are not reached. *)
Lemma for_each_aborts {A} (body : A -> M unit) (l1 l2 : list A) (x : A)
    (w w1 w2 : World) (e : Exc) :
  for_each body l1 w = (Ok tt, w1) ->
  body x w1 = (Raise e, w2) ->
  for_each body (l1 ++ x :: l2) w = (Raise e, w2).
Proof.
  revert w. induction l1 as [| y l1 IH]; intros w Hl1 Hx.
  - injection Hl1 as <-. cbn [app for_each]. unfold bind. now rewrite Hx.
  - cbn [app for_each] in *. unfold bind in *.
    destruct (body y w) as [[[] | e'] w'] eqn:Hy; [| discriminate].
    now apply IH.
Qed.

(** A failure of the normalizer is outside the [try] of [process_invoice]:
    it leaves [process_invoice] and the loop body as it is. *)
Lemma normalize_failure_escapes {U : UnicodeDB} {X : Externals}
    (v : Variant) (file_path : str) (w w1 : World) (e : Exc) :
  normalize v file_path (add_stdout (MsgProcessing file_path) w)
  = (Raise e, w1) ->
  process_invoice v file_path w = (Raise e, w1)
  /\ process_one v file_path w = (Raise e, w1).
Proof.
  intros H.
  assert (Hp : process_invoice v file_path w = (Raise e, w1)).
  { unfold process_invoice, bind, print. now rewrite H. }
  split; [exact Hp |]. unfold process_one, bind. now rewrite Hp.
Qed.

(** A failure of the backend is inside the [try]: it is reported, the loop
    body prints the failure line for the file and returns, and the loop goes
    on. *)
Lemma backend_failure_recorded {U : UnicodeDB} {X : Externals}
    (v : Variant) (file_path : str) (w w1 : World)
    (encoded_image media_type : str) (e : Exc) :
  normalize v file_path (add_stdout (MsgProcessing file_path) w)
  = (Ok (encoded_image, media_type), w1) ->
  vision_backend v media_type encoded_image = Raise e ->
  process_one v file_path w
  = (Ok tt,
     add_stdout MsgRule
       (add_stdout (MsgFailed file_path)
          (add_stdout (MsgErrorProcessingInvoice e) w1))).
Proof.
  intros Hnorm Hback.
  unfold process_one, process_invoice, bind, print.
  rewrite Hnorm. unfold try_except, bind, lift. now rewrite Hback.
Qed.

(** C8, the code at a batch of three files whose second is a corrupt PDF.
    The renderer raises inside [pdf_to_image], which [process_invoice] calls
    before its [try]: the exception leaves [process_invoice] and the loop of
    [process_all_invoices] in both variants.  The first file is persisted;
    for the second no failure line is printed; the third file is never
    processed and has no output, although alone it is processed and
    persisted.  [process_all_invoices] on the same folder ends with the
    same exception. *)
Lemma C8_corrupt_file_aborts_batch (v : Variant) :
  let w := Scenario.world [(lit "a.png", Scenario.png_a);
                           (lit "b.pdf", Scenario.pdf_b);
                           (lit "c.png", Scenario.png_c)] in
  let run := process_files (U := ascii_db) (X := Scenario.demo) v
               [lit "a.png"; lit "b.pdf"; lit "c.png"] w in
  let alone := process_files (U := ascii_db) (X := Scenario.demo) v
                 [lit "c.png"] w in
  fst run = Raise DocumentError
  /\ is_Some (outputs (snd run) !! lit "a_extracted.json")
  /\ outputs (snd run) !! lit "c_extracted.json" = None
  /\ last (stdout (snd run)) = Some (MsgProcessing (lit "b.pdf"))
  /\ existsb (fun m => match m with
                       | MsgFailed _ => true
                       | MsgProcessing p => str_eqb p (lit "c.png")
                       | _ => false
                       end) (stdout (snd run)) = false
  /\ fst alone = Ok tt
  /\ is_Some (outputs (snd alone) !! lit "c_extracted.json")
  /\ fst (process_all_invoices (U := ascii_db) (X := Scenario.demo) v w)
     = Raise DocumentError.
Proof.
  destruct v; vm_compute; repeat split; eauto.
Qed.

(** ** Temporary files of the normalizer *)

(** The Anthropic variant when the temporary image is created and the
    write fails: the exception leaves [pdf_to_image] and the empty file
    stays. *)
Lemma pdf_to_image_write_failure {X : Externals}
    (pdf_path : str) (doc img_data : bytes) (w : World) :
  read_file pdf_path w = (Ok doc, w) ->
  fitz_first_page_png 2 doc = Ok img_data ->
  io_fault (OpenWrite (temp_image_path Anthropic)) = false ->
  io_fault (WriteData (temp_image_path Anthropic)) = true ->
  pdf_to_image Anthropic pdf_path w
  = (Raise OSError, set_fs (insert (temp_image_path Anthropic) []) w).
Proof.
  intros Hread Hrender Hopen Hwrite.
  unfold pdf_to_image, fitz_open, bind, lift, write_file.
  now rewrite Hread, Hrender, Hopen, Hwrite.
Qed.

(** C9, the code at a PDF whose first page renders while the disk is full
    (Anthropic variant) or while the temporary image cannot be read back
    (Groq variant): [pdf_to_image] ends with the exception and the temporary
    file is still there, because [os.remove] is reached on the normal path
    only.  Without the fault the file is removed.  The enhanced copy of an
    image (Groq variant) stays in the same way when it cannot be read
    back. *)
Lemma C9_temporary_file_left_behind :
  let w := Scenario.world [(lit "e.pdf", Scenario.pdf_e);
                           (lit "a.png", Scenario.png_a)] in
  let enhanced := normalize (U := ascii_db)
                    (X := Scenario.demo_unreadable_temp)
                    Groq (lit "a.png") w in
  let full := pdf_to_image (X := Scenario.demo_disk_full)
                Anthropic (lit "e.pdf") w in
  let unreadable := pdf_to_image (X := Scenario.demo_unreadable_temp)
                      Groq (lit "e.pdf") w in
  let fine := pdf_to_image (X := Scenario.demo) Anthropic (lit "e.pdf") w in
  fs w !! lit "temp_invoice.png" = None
  /\ fst full = Raise OSError
  /\ fs (snd full) !! lit "temp_invoice.png" = Some []
  /\ fst unreadable = Raise OSError
  /\ fs (snd unreadable) !! lit "temp_invoice_enhanced.png"
     = Some Scenario.page_e
  /\ fst fine = Ok Scenario.page_e
  /\ fs (snd fine) !! lit "temp_invoice.png" = None
  /\ fst enhanced = Raise OSError
  /\ fs (snd enhanced) !! lit "temp_enhanced_a.png" = Some Scenario.png_a.
Proof. vm_compute. repeat split; reflexivity. Qed.

(** * Further properties of the code *)

(** ** File names and the output file *)

Lemma rfind_from_absent (i : nat) (c : char) (s : str) :
  c ∉ s -> rfind_from i c s = None.
Proof.
  revert i. induction s as [| d s IH]; intros i Hc; [reflexivity |].
  cbn [rfind_from]. rewrite IH by set_solver.
  destruct (N.eqb_spec d c) as [-> | _]; [set_solver | reflexivity].
Qed.

Lemma rfind_from_last (i : nat) (c : char) (a b : str) :
  c ∉ b -> rfind_from i c (a ++ c :: b) = Some (i + length a)%nat.
Proof.
  intros Hb. revert i. induction a as [| d a IH]; intros i.
  - cbn [app rfind_from length]. rewrite rfind_from_absent by assumption.
    rewrite N.eqb_refl. f_equal. lia.
  - cbn [app rfind_from length]. rewrite IH. f_equal. lia.
Qed.

(** A name [base.ext]: a base that is not empty, a dot, and an extension
    that is not empty and holds no dot. *)
Lemma stem_suffix_of_dotted (base ext : str) :
  base <> [] -> ext <> [] -> dot ∉ ext ->
  stem (base ++ dot :: ext) = base /\ suffix (base ++ dot :: ext) = dot :: ext.
Proof.
  intros Hbase Hext Hdot. unfold stem, suffix, rfind.
  rewrite rfind_from_last by assumption. cbn [Nat.add].
  rewrite length_app. cbn [length].
  assert (0 < length base)%nat by (destruct base; [easy | cbn; lia]).
  assert (0 < length ext)%nat by (destruct ext; [easy | cbn; lia]).
  destruct (Nat.ltb_spec 0 (length base)); [| lia].
  destruct (Nat.ltb_spec (length base) (length base + S (length ext) - 1));
    [| lia].
  cbn [andb]. split.
  - apply take_app_length.
  - apply drop_app_length.
Qed.

(** [save_results] for a name [base.ext], when the file can be written. *)
Lemma save_results_dotted {X : Externals}
    (data : json) (base ext : str) (w : World) :
  base <> [] -> ext <> [] -> dot ∉ ext ->
  io_fault (OpenWrite (base ++ lit "_extracted.json")) = false ->
  io_fault (WriteData (base ++ lit "_extracted.json")) = false ->
  save_results data (base ++ dot :: ext) w
  = (Ok tt,
     add_stdout (MsgSaved (base ++ lit "_extracted.json"))
       (set_outputs (insert (base ++ lit "_extracted.json") data) w)).
Proof.
  intros Hbase Hext Hdot Hopen Hwrite.
  unfold save_results, output_filename, bind, print.
  destruct (stem_suffix_of_dotted base ext Hbase Hext Hdot) as [-> _].
  now rewrite Hopen, Hwrite.
Qed.

(** X1. [save_results] for an input named [base.ext] (base not empty, the
    extension not empty and without a dot; the base may hold dots itself)
    writes the record to [base_extracted.json] and prints that name, when
    the file can be written: the extension is dropped, whatever it is. *)
Theorem X1_save_results_output_name {X : Externals}
    (data : json) (base ext : str) (w : World) :
  base <> [] -> ext <> [] -> dot ∉ ext ->
  io_fault (OpenWrite (base ++ lit "_extracted.json")) = false ->
  io_fault (WriteData (base ++ lit "_extracted.json")) = false ->
  save_results data (base ++ dot :: ext) w
  = (Ok tt,
     add_stdout (MsgSaved (base ++ lit "_extracted.json"))
       (set_outputs (insert (base ++ lit "_extracted.json") data) w)).
Proof. apply save_results_dotted. Qed.

(** The input [acme_invoice.pdf] is saved as [acme_invoice_extracted.json]. *)
Lemma X1_save_results_output_name_witness :
  save_results (X := Scenario.demo) (JDict ∅) (lit "acme_invoice.pdf")
    Scenario.empty_world
  = (Ok tt,
     add_stdout (MsgSaved (lit "acme_invoice_extracted.json"))
       (set_outputs (insert (lit "acme_invoice_extracted.json") (JDict ∅))
          Scenario.empty_world)).
Proof.
  apply (X1_save_results_output_name (X := Scenario.demo) (JDict ∅)
           (lit "acme_invoice") (lit "pdf") Scenario.empty_world);
    try reflexivity; try discriminate.
  vm_compute. set_solver.
Defined.

(** X2. Two inputs that differ in their extension only ([base.e1] and
    [base.e2], such as a PDF and a scan of the same invoice) share one
    output file: after [save_results] for the first and then for the second
    the file [base_extracted.json] holds the second record and the first is
    gone; every other output is as before the two calls. *)
Theorem X2_same_base_shares_output {X : Externals}
    (d1 d2 : json) (base e1 e2 : str) (w : World) :
  base <> [] -> e1 <> [] -> e2 <> [] -> dot ∉ e1 -> dot ∉ e2 ->
  io_fault (OpenWrite (base ++ lit "_extracted.json")) = false ->
  io_fault (WriteData (base ++ lit "_extracted.json")) = false ->
  let w2 := snd ((save_results d1 (base ++ dot :: e1) ;;;
                  save_results d2 (base ++ dot :: e2)) w) in
  outputs w2 = <[base ++ lit "_extracted.json" := d2]> (outputs w)
  /\ outputs w2 !! (base ++ lit "_extracted.json") = Some d2
  /\ forall n, n <> base ++ lit "_extracted.json" ->
               outputs w2 !! n = outputs w !! n.
Proof.
  intros Hbase H1 H2 Hd1 Hd2 Hopen Hwrite w2.
  assert (Hout : outputs w2
                 = <[base ++ lit "_extracted.json" := d2]> (outputs w)).
  { subst w2. unfold bind.
    rewrite save_results_dotted by assumption.
    rewrite save_results_dotted by assumption.
    cbn [snd outputs add_stdout set_outputs]. apply insert_insert_eq. }
  rewrite Hout. split; [reflexivity |]. split.
  - apply lookup_insert_eq.
  - intros n Hn. now rewrite lookup_insert_ne.
Qed.

(** The invoice [acme.pdf] and its scan [acme.png]. *)
Lemma X2_same_base_shares_output_witness :
  let w2 := snd ((save_results (X := Scenario.demo) (JBool true)
                    (lit "acme.pdf") ;;;
                  save_results (X := Scenario.demo) (JBool false)
                    (lit "acme.png")) Scenario.empty_world) in
  outputs w2 = <[lit "acme_extracted.json" := JBool false]> ∅
  /\ outputs w2 !! lit "acme_extracted.json" = Some (JBool false)
  /\ forall n, n <> lit "acme_extracted.json" ->
               outputs w2 !! n = (∅ : gmap str json) !! n.
Proof.
  apply (X2_same_base_shares_output (X := Scenario.demo)
           (JBool true) (JBool false) (lit "acme") (lit "pdf") (lit "png")
           Scenario.empty_world);
    try reflexivity; try discriminate; vm_compute; set_solver.
Defined.

(** ** The enhanced copy of an image *)

Lemma bind_ok_inv {A B} (m : M A) (k : A -> M B) (w w' : World) (b : B) :
  bind m k w = (Ok b, w') ->
  exists a w1, m w = (Ok a, w1) /\ k a w1 = (Ok b, w').
Proof.
  unfold bind. destruct (m w) as [[a | e] w1]; [eauto | discriminate].
Qed.

(** [enhance_existing_image] never raises: it returns the path of the
    enhanced copy, or the path it was given. *)
Lemma enhance_existing_image_returns {U : UnicodeDB} {X : Externals}
    (p : str) (w : World) :
  exists r, fst (enhance_existing_image p w) = Ok r
            /\ (r = inl (lit "temp_enhanced_" ++ p) \/ r = inr p).
Proof.
  unfold enhance_existing_image, try_except.
  match goal with |- context [match ?m w with _ => _ end] =>
    destruct (m w) as [[r | e] w1] eqn:E end.
  - exists r. split; [reflexivity |]. left.
    repeat (apply bind_ok_inv in E; destruct E as (? & ? & _ & E)).
    now injection E as <- _.
  - exists (inr p). split; [reflexivity |]. now right.
Qed.


(** ** Frames *)

Section Frames.
Context {U : UnicodeDB} {X : Externals}.
Context (R : World -> World -> Prop) `{!PreOrder R}.

Lemma preserves_ret {A} (a : A) : preserves R (ret a).
Proof. intros w. reflexivity. Qed.

Lemma preserves_raise {A} (e : Exc) : preserves R (@raise A e).
Proof. intros w. reflexivity. Qed.

Lemma preserves_lift {A} (r : Result A) : preserves R (lift r).
Proof. intros w. reflexivity. Qed.

Lemma preserves_print (m : Msg) : ignores_stdout R -> preserves R (print m).
Proof. intros H w. apply H. Qed.

Lemma preserves_bind {A B} (m : M A) (k : A -> M B) :
  preserves R m -> (forall a, preserves R (k a)) -> preserves R (bind m k).
Proof.
  intros Hm Hk w. unfold bind. specialize (Hm w).
  destruct (m w) as [[a | e] w1]; cbn [snd] in *; [| exact Hm].
  etransitivity; [exact Hm | apply Hk].
Qed.

Lemma preserves_try_except {A} (m : M A) (h : Exc -> M A) :
  preserves R m -> (forall e, preserves R (h e)) ->
  preserves R (try_except m h).
Proof.
  intros Hm Hh w. unfold try_except. specialize (Hm w).
  destruct (m w) as [[a | e] w1]; cbn [snd] in *; [exact Hm |].
  etransitivity; [exact Hm | apply Hh].
Qed.

Lemma preserves_try_except_of {A} (cls : Exc -> bool) (m : M A)
    (h : Exc -> M A) :
  preserves R m -> (forall e, preserves R (h e)) ->
  preserves R (try_except_of cls m h).
Proof.
  intros Hm Hh w. unfold try_except_of. specialize (Hm w).
  destruct (m w) as [[a | e] w1]; cbn [snd] in *; [exact Hm |].
  destruct (cls e); [| exact Hm].
  etransitivity; [exact Hm | apply Hh].
Qed.

Lemma preserves_read_file (p : str) : preserves R (read_file p).
Proof.
  intros w. unfold read_file.
  repeat match goal with
         | |- context [if ?b then _ else _] => destruct b
         | |- context [match ?x with _ => _ end] => destruct x
         end; reflexivity.
Qed.

Lemma preserves_fitz_open (p : str) : preserves R (fitz_open p).
Proof.
  intros w. unfold fitz_open. pose proof (preserves_read_file p w) as H.
  now destruct (read_file p w) as [[b | e] w1].
Qed.

Lemma touches_only_insert {V} (p : str) (b : V) : touches_only p (insert p b).
Proof. intros m q Hq. now apply lookup_insert_ne. Qed.

Lemma touches_only_delete {V} (p : str) :
  touches_only (V := V) p (delete p).
Proof. intros m q Hq. now apply lookup_delete_ne. Qed.

Lemma preserves_write_file (p : str) (b : bytes) :
  allows_write R p -> preserves R (write_file p b).
Proof.
  intros H w. unfold write_file.
  destruct (io_fault (OpenWrite p)); [reflexivity |].
  destruct (io_fault (WriteData p)); apply H, touches_only_insert.
Qed.

Lemma preserves_os_remove (p : str) :
  allows_write R p -> preserves R (os_remove p).
Proof.
  intros H w. unfold os_remove.
  destruct (io_fault (Remove p)); [reflexivity |].
  destruct (fs w !! p); [apply H, touches_only_delete | reflexivity].
Qed.

Lemma preserves_image_save (p : str) (fmt : option str) (img : image) :
  allows_write R p -> preserves R (image_save p fmt img).
Proof.
  intros H w. unfold image_save.
  destruct (io_fault (OpenWrite p)); [reflexivity |].
  destruct (image_encode fmt p img), (fs w !! p), (io_fault (WriteData p));
    cbn [snd]; apply H;
    first [apply touches_only_insert | apply touches_only_delete].
Qed.

Lemma preserves_requests_post (req : SoapRequest) :
  ignores_sent R -> preserves R (requests_post req).
Proof. intros H w. apply H. Qed.

Lemma preserves_save_results (data : json) (p : str) :
  ignores_stdout R -> allows_output R (output_filename p) ->
  preserves R (save_results data p).
Proof.
  intros H1 H2. unfold save_results. apply preserves_bind.
  - intros w. destruct (io_fault (OpenWrite _)); [reflexivity |].
    destruct (io_fault (WriteData _)); apply H2;
      first [apply touches_only_insert | apply touches_only_delete].
  - intros _. now apply preserves_print.
Qed.

(** Applies the lemmas above along the structure of a method. *)
Ltac frame :=
  repeat first
    [ assumption
    | match goal with H : context [preserves] |- _ => solve [apply H] end
    | apply preserves_ret | apply preserves_raise | apply preserves_lift
    | apply preserves_print; assumption
    | apply preserves_read_file
    | apply preserves_fitz_open
    | apply preserves_write_file; assumption
    | apply preserves_os_remove; assumption
    | apply preserves_image_save; assumption
    | apply preserves_requests_post; assumption
    | match goal with
      | |- preserves _ (bind _ _) => apply preserves_bind; [| intros ?]
      | |- preserves _ (try_except _ _) =>
          apply preserves_try_except; [| intros ?]
      | |- preserves _ (try_except_of _ _ _) =>
          apply preserves_try_except_of; [| intros ?]
      | |- preserves _ (if ?b then _ else _) => destruct b
      | |- preserves _ (match ?x with _ => _ end) => destruct x
      | |- preserves _ (let '(_, _) := ?x in _) => destruct x
      end ].

Lemma preserves_anthropic_records (vat : str) (l : list ET.Element) :
  preserves R (anthropic_records vat l).
Proof. induction l as [| r l IH]; cbn [anthropic_records]; frame. Qed.

Lemma preserves_groq_records (vat : str) (l : list ET.Element) :
  ignores_stdout R -> preserves R (groq_records vat l).
Proof. intros H. induction l as [| r l IH]; cbn [groq_records]; frame. Qed.

(** [parse_vat_response] only prints. *)
Lemma preserves_parse_vat_response (v : Variant) (xml vat : str) :
  ignores_stdout R -> preserves R (parse_vat_response v xml vat).
Proof.
  intros H. unfold parse_vat_response. frame.
  - apply preserves_anthropic_records.
  - now apply preserves_groq_records.
Qed.

(** [check_vat_reliability] prints and sends. *)
Lemma preserves_check_vat_reliability (v : Variant) (x : json) :
  ignores_stdout R -> ignores_sent R ->
  preserves R (check_vat_reliability v x).
Proof.
  intros H1 H2. unfold check_vat_reliability.
  pose proof (fun xml vat => preserves_parse_vat_response v xml vat H1).
  frame.
Qed.

Lemma preserves_encode_image (p : str) : preserves R (encode_image p).
Proof. unfold encode_image. frame. Qed.

Lemma preserves_enhance_image_for_ocr (img : image) :
  preserves R (enhance_image_for_ocr img).
Proof. unfold enhance_image_for_ocr. frame. Qed.

Lemma preserves_enhance_existing_image (p : str) :
  ignores_stdout R -> allows_write R (lit "temp_enhanced_" ++ p) ->
  preserves R (enhance_existing_image p).
Proof.
  intros H1 H2. unfold enhance_existing_image.
  pose proof preserves_enhance_image_for_ocr. frame.
Qed.

(** The normalizer prints and works on its temporary files. *)
Lemma preserves_normalize (v : Variant) (p : str) :
  ignores_stdout R -> allows_write R (temp_image_path v) ->
  (v = Groq -> allows_write R (lit "temp_enhanced_" ++ p)) ->
  preserves R (normalize v p).
Proof.
  intros H1 H2 H3. unfold normalize, pdf_to_image.
  pose proof preserves_encode_image. pose proof preserves_enhance_image_for_ocr.
  destruct v; [clear H3; frame | specialize (H3 eq_refl)].
  destruct (str_eqb _ _); [frame |].
  apply preserves_bind; [| intros ?; frame].
  intros w. unfold bind at 1.
  pose proof (preserves_enhance_existing_image p H1 H3 w) as Hw.
  destruct (enhance_existing_image_returns p w) as (r & Hr & Hcase).
  destruct (enhance_existing_image p w) as [res w1].
  cbn [fst snd] in *. subst res. etransitivity; [exact Hw |].
  destruct Hcase as [-> | ->]; revert w1 Hw; intros w1 _; revert w1.
  - change (preserves R (encoded_image <- encode_image (lit "temp_enhanced_" ++ p) ;;
                         os_remove (lit "temp_enhanced_" ++ p) ;;;
                         ret encoded_image)). frame.
  - apply preserves_encode_image.
Qed.

(** After the image: the backend, the parser and the check. *)
Lemma preserves_parse_response (v : Variant) (text : str) :
  ignores_stdout R ->
  (forall x, preserves R (check_vat_reliability v x)) ->
  preserves R (parse_response v text).
Proof.
  intros H1 H2. unfold parse_response, attach_vat_reliability. frame.
Qed.

(** [process_invoice] around a check with frame [R]. *)
Lemma preserves_process_invoice (v : Variant) (p : str) :
  ignores_stdout R -> preserves R (normalize v p) ->
  (forall x, preserves R (check_vat_reliability v x)) ->
  preserves R (process_invoice v p).
Proof.
  intros H1 H2 H3. unfold process_invoice.
  pose proof (fun t => preserves_parse_response v t H1 H3). frame.
Qed.

(** The loop body around a [process_invoice] and a [save_results] with
    frame [R]. *)
Lemma preserves_process_one (v : Variant) (p : str) :
  ignores_stdout R -> preserves R (process_invoice v p) ->
  (forall data, preserves R (save_results data p)) ->
  preserves R (process_one v p).
Proof. intros H1 H2 H3. unfold process_one. frame. Qed.

Lemma preserves_for_each {A} (body : A -> M unit) (l : list A) :
  (forall x, x ∈ l -> preserves R (body x)) -> preserves R (for_each body l).
Proof.
  induction l as [| x l IH]; intros H; cbn [for_each]; [apply preserves_ret |].
  apply preserves_bind; [apply H; left | intros _; apply IH].
  intros y Hy. apply H. now right.
Qed.

(** The batch, when the loop body has frame [R] for each of its files. *)
Lemma preserves_process_files (v : Variant) (files : list str) :
  ignores_stdout R ->
  (forall f, f ∈ files -> preserves R (process_one v f)) ->
  preserves R (process_files v files).
Proof.
  intros H1 H2. unfold process_files. destruct files as [| f files]; frame.
  - apply preserves_for_each. intros x _. now apply preserves_print.
  - now apply preserves_for_each.
Qed.

(** The loop body, from the conditions on [R] alone. *)
Lemma preserves_process_one_of (v : Variant) (p : str) :
  ignores_stdout R -> ignores_sent R ->
  allows_write R (temp_image_path v) ->
  (v = Groq -> allows_write R (lit "temp_enhanced_" ++ p)) ->
  allows_output R (output_filename p) ->
  preserves R (process_one v p).
Proof.
  intros H1 H2 H3 H4 H5. apply preserves_process_one; [assumption | |].
  - apply preserves_process_invoice; [assumption | |].
    + now apply preserves_normalize.
    + intros x. now apply preserves_check_vat_reliability.
  - intros data. now apply preserves_save_results.
Qed.
End Frames.

(** The frames in use. *)

#[local] Instance only_prints_preorder : PreOrder only_prints.
Proof.
  split.
  - now intros w.
  - intros w1 w2 w3 (? & ? & ?) (? & ? & ?). repeat split; congruence.
Qed.

#[local] Instance keeps_file_preorder (p : str) : PreOrder (keeps_file p).
Proof.
  split; [now intros w |].
  intros w1 w2 w3 H1 H2. unfold keeps_file in *. congruence.
Qed.

#[local] Instance keeps_output_preorder (n : str) : PreOrder (keeps_output n).
Proof.
  split; [now intros w |].
  intros w1 w2 w3 H1 H2. unfold keeps_output in *. congruence.
Qed.

Lemma keeps_file_allows_write (p q : str) :
  p <> q -> allows_write (keeps_file p) q.
Proof. intros Hpq g w Hg. now apply Hg. Qed.

Lemma keeps_output_allows_output (n m : str) :
  n <> m -> allows_output (keeps_output n) m.
Proof. intros Hnm g w Hg. now apply Hg. Qed.

Lemma sends_good_refl {U : UnicodeDB} (w : World) : sends_good 0 w w.
Proof. exists []. now rewrite app_nil_r. Qed.

Lemma sends_good_trans {U : UnicodeDB} (n m : nat) (w1 w2 w3 : World) :
  sends_good n w1 w2 -> sends_good m w2 w3 -> sends_good (n + m) w1 w3.
Proof.
  intros (l1 & E1 & F1 & L1) (l2 & E2 & F2 & L2). exists (l1 ++ l2).
  rewrite E2, E1, app_assoc, Forall_app, length_app.
  repeat split; [assumption | assumption | lia].
Qed.


#[local] Instance sends_good_preorder {U : UnicodeDB} : PreOrder (sends_good 0).
Proof.
  split; [intros w; apply sends_good_refl |].
  intros w1 w2 w3 H1 H2. exact (sends_good_trans 0 0 w1 w2 w3 H1 H2).
Qed.


Section Requests.
Context {U : UnicodeDB} {X : Externals}.









Lemma good_request_for (s : str) :
  eligible s = true -> good_request (request_for s).
Proof.
  unfold eligible, good_request, request_for. cbn [url soap_action dic timeout].
  rewrite !andb_true_iff, !Nat.leb_le. intros [[[_ ?] ?] ?]. repeat split; done.
Qed.

(** What one check does to the world. *)
Lemma check_vat_reliability_effect (v : Variant) (x : json) (w : World) :
  let w' := snd (check_vat_reliability v x w) in
  fs w' = fs w /\ outputs w' = outputs w
  /\ (sent w' = sent w
      \/ exists r, good_request r /\ sent w' = sent w ++ [r]).
Proof.
  assert (Hsame : forall a : Result (option bool),
             let w' := snd (a, w) in
             fs w' = fs w /\ outputs w' = outputs w
             /\ (sent w' = sent w
                 \/ exists r, good_request r /\ sent w' = sent w ++ [r])).
  { intros a. cbn. auto. }
  destruct (isinstance_str x) eqn:Hstr.
  2: { rewrite check_vat_reliability_not_str by (now right). apply Hsame. }
  destruct x; try discriminate.
  rewrite check_vat_reliability_run.
  destruct (eligible s) eqn:Hel; [| apply Hsame].
  pose proof (good_request_for s Hel) as Hgood.
  assert (Hsent : forall w1, only_prints (add_sent (request_for s) w) w1 ->
             fs w1 = fs w /\ outputs w1 = outputs w
             /\ (sent w1 = sent w
                 \/ exists r, good_request r /\ sent w1 = sent w ++ [r])).
  { intros w1 (-> & -> & ->). cbn. split; [done |]. split; [done |].
    right. now exists (request_for s). }
  destruct (registry_post (request_for s)) as [[status text] | e];
    [destruct (status =? 200)%Z |]; cbv zeta; apply Hsent.
  - apply (preserves_parse_vat_response only_prints). now intros m w1.
  - now cbn.
  - now cbn.
Qed.








End Requests.

(** X3. One call of [check_vat_reliability], whatever its argument and
    whatever the registry answers, touches no file and no output and sends
    at most one request; a request it sends goes to the registry's URL with
    the registry's action and a timeout of ten seconds and carries a body of
    8 to 10 characters that [str.isdigit] accepts (decimal digits, but also
    other digit characters of Unicode such as the superscript two). *)
Theorem X3_check_sends_at_most_one_request {U : UnicodeDB} {X : Externals}
    (v : Variant) (x : json) (w : World) :
  let w' := snd (check_vat_reliability v x w) in
  fs w' = fs w /\ outputs w' = outputs w
  /\ (sent w' = sent w
      \/ exists r, good_request r /\ sent w' = sent w ++ [r]).
Proof. apply check_vat_reliability_effect. Qed.


(** X5. A batch over [files], whether it runs to its end or is aborted,
    writes in two places only: every file other than the temporary ones
    ([temp_invoice.png] in the Anthropic variant; [temp_invoice_enhanced.png]
    and [temp_enhanced_<input>] in the Groq variant) is afterwards as it was
    before, and so is every output other than the inputs' [stem_extracted.json]. *)
Theorem X5_batch_writes_are_confined {U : UnicodeDB} {X : Externals}
    (v : Variant) (files : list str) (w : World) :
  let w' := snd (process_files v files w) in
  (forall p, p ∉ temp_paths v files -> fs w' !! p = fs w !! p)
  /\ (forall n, n ∉ map output_filename files ->
                outputs w' !! n = outputs w !! n).
Proof.
  split.
  - intros p Hp.
    apply (preserves_process_files (keeps_file p)); [now intros m w1 |].
    intros f Hf. apply (preserves_process_one_of (keeps_file p)).
    + now intros m w1.
    + now intros r w1.
    + apply keeps_file_allows_write. intros ->. apply Hp. left.
    + intros ->. apply keeps_file_allows_write. intros ->. apply Hp.
      unfold temp_paths. right.
      apply list_elem_of_In, (in_map (fun f => lit "temp_enhanced_" ++ f)).
      now apply list_elem_of_In.
    + now intros g w1 _.
  - intros n Hn.
    apply (preserves_process_files (keeps_output n)); [now intros m w1 |].
    intros f Hf. apply (preserves_process_one_of (keeps_output n)).
    + now intros m w1.
    + now intros r w1.
    + now intros g w1 _.
    + now intros _ g w1 _.
    + apply keeps_output_allows_output. intros ->. apply Hn.
      apply list_elem_of_In, in_map. now apply list_elem_of_In.
Qed.

(** ** The files of a batch *)

Lemma startswith_firstn (r p : str) :
  startswith r p = true -> firstn (length p) r = p.
Proof.
  revert r. induction p as [| c p IH]; intros r H; [reflexivity |].
  destruct r as [| d r]; [discriminate |]. cbn [startswith] in H.
  apply andb_true_iff in H as [Hc Hp]. apply N.eqb_eq in Hc as ->.
  cbn [length firstn]. now rewrite IH.
Qed.

(** A name cannot end in two patterns that do not overlap. *)
Lemma endswith_overlap (name p q : str) :
  endswith name p = true -> endswith name q = true -> overlap p q = true.
Proof.
  unfold endswith, overlap. intros Hp Hq.
  apply startswith_firstn in Hp, Hq. rewrite length_rev in Hp, Hq.
  destruct (Nat.leb_spec (length p) (length q)) as [Hle | Hlt].
  - rewrite <- Hq, take_take, Nat.min_l, Hp by assumption.
    apply str_eqb_refl.
  - rewrite <- Hp, take_take, Nat.min_l, Hq by lia. apply str_eqb_refl.
Qed.

Lemma NoDup_filter_patterns (ps names : list str) :
  exclusive ps = true -> NoDup names ->
  NoDup (flat_map (fun p => List.filter (fun n => endswith n p) names) ps).
Proof.
  intros Hex Hnames. induction ps as [| p ps IH]; [constructor |].
  cbn [exclusive] in Hex. apply andb_true_iff in Hex as [Hp Hps].
  cbn [flat_map]. apply NoDup_app. split; [| split].
  - now apply NoDup_ListNoDup, List.NoDup_filter, NoDup_ListNoDup.
  - intros n Hn Hn'. apply list_elem_of_In, filter_In in Hn as [_ Hn].
    apply list_elem_of_In, in_flat_map in Hn' as (q & Hq & Hn').
    apply filter_In in Hn' as [_ Hn'].
    rewrite forallb_forall in Hp. specialize (Hp q Hq).
    now rewrite (endswith_overlap n p q Hn Hn') in Hp.
  - now apply IH.
Qed.

Lemma get_supported_files_patterns {U : UnicodeDB} {X : Externals}
    (w : World) :
  get_supported_files w
  = (Ok (flat_map (fun p => List.filter (fun n => endswith n p) (entries w))
           glob_patterns), w).
Proof.
  unfold get_supported_files. f_equal. f_equal.
  unfold supported_extensions, glob_patterns, glob.
  cbn [flat_map]. now rewrite <- !app_assoc.
Qed.

Lemma elem_of_flat_map_filter (ps names : list str) (n : str) :
  n ∈ flat_map (fun p => List.filter (fun n => endswith n p) names) ps
  <-> n ∈ names /\ exists p, p ∈ ps /\ endswith n p = true.
Proof.
  rewrite list_elem_of_In, in_flat_map. split.
  - intros (p & Hp & Hn). apply filter_In in Hn as [Hn He].
    split; [now apply list_elem_of_In |]. exists p.
    split; [now apply list_elem_of_In | assumption].
  - intros (Hn & p & Hp & He). exists p.
    split; [now apply list_elem_of_In |]. apply filter_In.
    split; [now apply list_elem_of_In | assumption].
Qed.

Lemma elem_of_names (m : gmap str bytes) (n : str) :
  n ∈ map fst (map_to_list m) <-> is_Some (m !! n).
Proof.
  rewrite list_elem_of_In, in_map_iff. split.
  - intros ([n' b] & <- & H). apply list_elem_of_In, elem_of_map_to_list in H.
    now exists b.
  - intros [b H]. exists (n, b). split; [reflexivity |].
    now apply list_elem_of_In, elem_of_map_to_list.
Qed.

Lemma NoDup_names (m : gmap str bytes) : NoDup (map fst (map_to_list m)).
Proof.
  replace (map fst (map_to_list m)) with ((map_to_list m).*1).
  - apply NoDup_fst_map_to_list.
  - generalize (map_to_list m). intros l.
    induction l as [| x l IH]; [reflexivity | cbn; now rewrite IH].
Qed.

(** The entries are the files and the subdirectories. *)
Lemma elem_of_entries {X : Externals} (w : World) (n : str) :
  n ∈ entries w <-> is_Some (fs w !! n) \/ n ∈ subdirs.
Proof.
  unfold entries. now rewrite elem_of_app, elem_of_names, elem_of_elements.
Qed.

Lemma NoDup_entries {X : Externals} (w : World) :
  (forall d, d ∈ subdirs -> fs w !! d = None) -> NoDup (entries w).
Proof.
  intros Hdisjoint. unfold entries. apply NoDup_app.
  split; [apply NoDup_names |]. split; [| apply NoDup_elements].
  intros n [b Hb]%elem_of_names Hd%elem_of_elements.
  rewrite (Hdisjoint n Hd) in Hb. discriminate.
Qed.

(** X6. [get_supported_files] changes nothing and never fails.  With the
    case-sensitive matching of [glob] it returns exactly the entries of the
    directory, files and subdirectories alike, whose name ends in one of the
    six extensions written all in lower case or all in upper case (a name in
    mixed case such as [a.Pdf] is not found).  It returns each of them once,
    no entry being both a file and a subdirectory. *)
Theorem X6_supported_files_found_once {U : UnicodeDB} {X : Externals}
    (w : World) :
  exists found,
    get_supported_files w = (Ok found, w)
    /\ (forall name, name ∈ found
          <-> (is_Some (fs w !! name) \/ name ∈ subdirs)
              /\ exists p, p ∈ glob_patterns /\ endswith name p = true)
    /\ ((forall d, d ∈ subdirs -> fs w !! d = None) -> NoDup found).
Proof.
  eexists. split; [apply get_supported_files_patterns |]. split.
  - intros name. now rewrite elem_of_flat_map_filter, elem_of_entries.
  - intros Hdisjoint.
    apply NoDup_filter_patterns; [now vm_compute | now apply NoDup_entries].
Qed.

(** A subdirectory named [scans.pdf] is found like a file; the Anthropic
    batch announces it, and ends when the renderer cannot open it. *)
Lemma subdirectory_is_scanned :
  let w := Scenario.world [(lit "notes.txt", Scenario.png_a)] in
  get_supported_files (U := ascii_db) (X := Subdirectory.demo_subdirectory) w
  = (Ok [lit "scans.pdf"], w)
  /\ process_all_invoices (U := ascii_db)
       (X := Subdirectory.demo_subdirectory) Anthropic w
     = (Raise DocumentError,
        add_stdout (MsgProcessing (lit "scans.pdf"))
          (add_stdout (MsgListed (lit "scans.pdf"))
             (add_stdout (MsgFound 1) w))).
Proof. now vm_compute. Qed.

(** ** The image sent to the backend *)

Section Normalize.
Context {U : UnicodeDB} {X : Externals}.

Lemma lift_inv {A} (r : Result A) (w w1 : World) (a : A) :
  lift r w = (Ok a, w1) -> r = Ok a /\ w1 = w.
Proof. unfold lift. now intros [= -> ->]. Qed.

Lemma read_file_inv (p : str) (w w1 : World) (b : bytes) :
  read_file p w = (Ok b, w1) -> fs w !! p = Some b /\ w1 = w.
Proof.
  unfold read_file. destruct (io_fault (OpenRead p)); [discriminate |].
  destruct (fs w !! p); [| discriminate].
  destruct (io_fault (ReadData p)); [discriminate |]. now intros [= -> ->].
Qed.

Lemma fitz_open_inv (p : str) (w w1 : World) (b : bytes) :
  fitz_open p w = (Ok b, w1) -> fs w !! p = Some b /\ w1 = w.
Proof.
  unfold fitz_open. intros H. apply read_file_inv.
  now destruct (read_file p w) as [[b' | e] w'].
Qed.

Lemma write_file_inv (p : str) (b : bytes) (w w1 : World) :
  write_file p b w = (Ok tt, w1) -> w1 = set_fs (insert p b) w.
Proof.
  unfold write_file. destruct (io_fault (OpenWrite p)); [discriminate |].
  destruct (io_fault (WriteData p)); [discriminate |]. now intros [= <-].
Qed.

Lemma image_save_inv (p : str) (fmt : option str) (img : image)
    (w w1 : World) :
  image_save p fmt img w = (Ok tt, w1) ->
  exists b, w1 = set_fs (insert p b) w.
Proof.
  unfold image_save. destruct (io_fault (OpenWrite p)); [discriminate |].
  destruct (image_encode fmt p img) as [b |]; [| discriminate].
  destruct (io_fault (WriteData p)); [discriminate |].
  intros [= <-]. now exists b.
Qed.

Lemma os_remove_inv (p : str) (w w1 : World) :
  os_remove p w = (Ok tt, w1) -> w1 = set_fs (delete p) w.
Proof.
  unfold os_remove. destruct (io_fault (Remove p)); [discriminate |].
  destruct (fs w !! p); [| discriminate]. now intros [= <-].
Qed.

Lemma encode_image_inv (p enc : str) (w w1 : World) :
  encode_image p w = (Ok enc, w1) ->
  exists b, fs w !! p = Some b /\ enc = b64encode b /\ w1 = w.
Proof.
  unfold encode_image. intros H.
  apply bind_ok_inv in H as (b & w2 & Hread & [= <- <-]).
  apply read_file_inv in Hread as [? ->]. now exists b.
Qed.

Lemma enhance_image_for_ocr_world (img : image) (w : World) :
  snd (enhance_image_for_ocr img w) = w.
Proof.
  unfold enhance_image_for_ocr, bind, lift, ret.
  destruct (image_mode_is_rgb img); cbn [negb];
    [| destruct (image_convert_rgb img); [| reflexivity]];
    (destruct (enhance_contrast _ _); [| reflexivity]);
    (destruct (enhance_sharpness _ _); [| reflexivity]);
    (destruct (enhance_brightness _ _); [| reflexivity]);
    reflexivity.
Qed.

(** What a successful conversion leaves behind. *)
Lemma pdf_to_image_ok (v : Variant) (p enc : str) (w w' : World) :
  pdf_to_image v p w = (Ok enc, w') ->
  w' = set_fs (delete (temp_image_path v)) w
  /\ exists doc page,
       fs w !! p = Some doc
       /\ fitz_first_page_png (zoom v) doc = Ok page
       /\ (v = Anthropic -> enc = b64encode page).
Proof.
  destruct v; unfold pdf_to_image; intros H.
  - apply bind_ok_inv in H as (doc & w1 & H1 & H).
    apply fitz_open_inv in H1 as [Hdoc ->].
    apply bind_ok_inv in H as (page & w1 & H1 & H).
    apply lift_inv in H1 as [Hpage ->].
    apply bind_ok_inv in H as ([] & w1 & H1 & H).
    apply write_file_inv in H1 as ->.
    apply bind_ok_inv in H as (enc' & w1 & H1 & H).
    apply encode_image_inv in H1 as (b & Hb & -> & ->).
    apply bind_ok_inv in H as ([] & w1 & H1 & [= <- <-]).
    apply os_remove_inv in H1 as ->.
    cbn [fs set_fs] in Hb. rewrite lookup_insert_eq in Hb.
    injection Hb as <-. split.
    + destruct w. unfold set_fs. cbn. f_equal. apply delete_insert_eq.
    + exists doc, page. auto.
  - apply bind_ok_inv in H as (doc & w1 & H1 & H).
    apply fitz_open_inv in H1 as [Hdoc ->].
    apply bind_ok_inv in H as (page & w1 & H1 & H).
    apply lift_inv in H1 as [Hpage ->].
    apply bind_ok_inv in H as (img & w1 & H1 & H).
    apply lift_inv in H1 as [_ ->].
    apply bind_ok_inv in H as (img' & w1 & H1 & H).
    pose proof (enhance_image_for_ocr_world img w) as Hw.
    rewrite H1 in Hw. cbn [snd] in Hw. subst w1.
    apply bind_ok_inv in H as ([] & w1 & H2 & H).
    apply image_save_inv in H2 as (b & ->).
    apply bind_ok_inv in H as (enc' & w1 & H2 & H).
    apply encode_image_inv in H2 as (b' & _ & _ & ->).
    apply bind_ok_inv in H as ([] & w1 & H2 & [= <- <-]).
    apply os_remove_inv in H2 as ->. split.
    + destruct w. unfold set_fs. cbn. f_equal. apply delete_insert_eq.
    + exists doc, page. repeat split; [assumption | assumption | discriminate].
Qed.

(** The media type [normalize] pairs with the image. *)
Lemma normalize_media (v : Variant) (name : str) (w : World) :
  match normalize v name w with
  | (Ok (_, media), _) =>
      media = if str_eqb (lower (suffix name)) (lit ".pdf")
              then lit "image/png"
              else media_type_of (lower (suffix name))
  | (Raise _, _) => True
  end.
Proof.
  unfold normalize. destruct (str_eqb _ _); unfold bind at 1.
  - now destruct (pdf_to_image v name w) as [[enc | e] w1].
  - match goal with |- context [match ?m w with _ => _ end] =>
      now destruct (m w) as [[enc | e] w1] end.
Qed.

#[local] Instance keeps_stdout_preorder : PreOrder keeps_stdout.
Proof.
  split; [now intros w |].
  intros w1 w2 w3 H1 H2. unfold keeps_stdout in *. congruence.
Qed.

(** X7. [enhance_existing_image] never raises.  It returns the path
    [temp_enhanced_<name>] of the enhanced copy and prints nothing, or it
    returns the path it was given and prints one line, the error of the
    enhancement. *)
Theorem X7_enhance_existing_image_never_raises (p : str) (w : World) :
  let r := enhance_existing_image p w in
  (fst r = Ok (inl (lit "temp_enhanced_" ++ p))
   /\ stdout (snd r) = stdout w)
  \/ (fst r = Ok (inr p)
      /\ exists e, stdout (snd r) = stdout w ++ [MsgErrorEnhancing p e]).
Proof.
  unfold enhance_existing_image, try_except.
  match goal with |- context [match ?m w with _ => _ end] =>
    assert (Hbody : preserves keeps_stdout m);
    [| specialize (Hbody w); destruct (m w) as [[r | e] w1] eqn:E] end.
  { apply (preserves_bind keeps_stdout);
      [apply (preserves_read_file keeps_stdout) | intros data].
    apply (preserves_bind keeps_stdout);
      [apply (preserves_lift keeps_stdout) | intros img].
    apply (preserves_bind keeps_stdout); [| intros img'].
    { intros w0. rewrite enhance_image_for_ocr_world. reflexivity. }
    apply (preserves_bind keeps_stdout);
      [| intros ?; apply (preserves_ret keeps_stdout)].
    apply (preserves_image_save keeps_stdout). now intros g w0 _. }
  - left. cbn [fst snd] in *. split; [| exact Hbody].
    repeat (apply bind_ok_inv in E; destruct E as (? & ? & _ & E)).
    now injection E as <- _.
  - right. cbn [fst snd] in *. split; [reflexivity |]. exists e.
    cbn. now rewrite Hbody.
Qed.

(** X8. When the image library cannot open a readable image, the Groq
    variant sends the image as it is: [normalize] returns the encoding of
    the file's own bytes with the media type of its extension, prints the
    error of the enhancement, and changes nothing else. *)
Theorem X8_groq_sends_original_when_enhancement_fails
    (p : str) (w : World) (data : bytes) (e : Exc) :
  str_eqb (lower (suffix p)) (lit ".pdf") = false ->
  fs w !! p = Some data ->
  io_fault (OpenRead p) = false -> io_fault (ReadData p) = false ->
  image_open data = Raise e ->
  normalize Groq p w
  = (Ok (b64encode data, media_type_of (lower (suffix p))),
     add_stdout (MsgErrorEnhancing p e) w).
Proof.
  intros Hpdf Hdata Hopen Hread Himg.
  unfold normalize. rewrite Hpdf.
  unfold enhance_existing_image, try_except, encode_image, bind, read_file,
    lift, print, ret.
  rewrite Hopen, Hdata, Hread, Himg. cbn. now rewrite Hopen, Hdata, Hread.
Qed.
End Normalize.

(** A scan the decoder rejects. *)
Lemma X8_groq_sends_original_when_enhancement_fails_witness :
  normalize (U := ascii_db) (X := BadImages.demo_bad_images) Groq
    (lit "a.png") (Scenario.world [(lit "a.png", Scenario.png_a)])
  = (Ok (Scenario.png_a, lit "image/png"),
     add_stdout (MsgErrorEnhancing (lit "a.png") ImageError)
       (Scenario.world [(lit "a.png", Scenario.png_a)])).
Proof.
  apply (X8_groq_sends_original_when_enhancement_fails (U := ascii_db)
           (X := BadImages.demo_bad_images) (lit "a.png")
           (Scenario.world [(lit "a.png", Scenario.png_a)])
           Scenario.png_a ImageError); now vm_compute.
Defined.

(** A pattern [.ext] is the suffix of [base.ext]. *)
Lemma suffix_of_pattern (base p : str) :
  base <> [] ->
  match p with
  | d :: c :: ext =>
      (d =? dot) && forallb (fun c => negb (c =? dot)) (c :: ext)
  | _ => false
  end = true ->
  suffix (base ++ p) = p.
Proof.
  intros Hbase Hp. destruct p as [| d [| c ext]]; try discriminate.
  apply andb_true_iff in Hp as [Hd Hext]. apply N.eqb_eq in Hd as ->.
  apply stem_suffix_of_dotted; [assumption | discriminate |].
  intros Hin. rewrite forallb_forall in Hext.
  apply list_elem_of_In, Hext in Hin. now rewrite N.eqb_refl in Hin.
Qed.

Lemma pattern_media_suffix {U : UnicodeDB} (base p m : str) :
  base <> [] -> (p, m) ∈ pattern_media ->
  suffix (base ++ p) = p
  /\ (if str_eqb (lower p) (lit ".pdf") then lit "image/png"
      else media_type_of (lower p)) = m.
Proof.
  intros Hbase Hp. unfold pattern_media in Hp.
  repeat (apply elem_of_cons in Hp as [[= -> ->] | Hp];
          [split; [now apply suffix_of_pattern | reflexivity] |]).
  now apply elem_of_nil in Hp.
Qed.

(** X9. A file found by the directory scan is sent under the media type of
    its extension, in upper case as in lower case: for a name [base.ext]
    with a base that is not empty, [normalize], when it returns, pairs the
    image with [image/jpeg] for jpg and jpeg, [image/gif] for gif,
    [image/webp] for webp, and [image/png] for png and for pdf. *)
Theorem X9_media_type_by_extension {U : UnicodeDB} {X : Externals}
    (v : Variant) (base p m : str) (w : World) :
  base <> [] -> (p, m) ∈ pattern_media ->
  match normalize v (base ++ p) w with
  | (Ok (_, media), _) => media = m
  | (Raise _, _) => True
  end.
Proof.
  intros Hbase Hp. pose proof (normalize_media v (base ++ p) w) as H.
  destruct (pattern_media_suffix base p m Hbase Hp) as [Hs Hm].
  rewrite Hs, Hm in H. exact H.
Qed.

(** The scan [a.JPG] of the demonstration is sent as [image/jpeg]. *)
Lemma X9_media_type_by_extension_witness :
  match normalize (U := ascii_db) (X := Scenario.demo) Anthropic
          (lit "a.JPG") (Scenario.world [(lit "a.JPG", Scenario.png_a)]) with
  | (Ok (_, media), _) => media = lit "image/jpeg"
  | (Raise _, _) => True
  end
  /\ fst (normalize (U := ascii_db) (X := Scenario.demo) Anthropic
            (lit "a.JPG") (Scenario.world [(lit "a.JPG", Scenario.png_a)]))
     = Ok (Scenario.png_a, lit "image/jpeg").
Proof.
  split; [| now vm_compute].
  apply (X9_media_type_by_extension (U := ascii_db) (X := Scenario.demo)
           Anthropic (lit "a") (lit ".JPG") (lit "image/jpeg")).
  - discriminate.
  - vm_compute. set_solver.
Defined.

(** X10. A conversion [pdf_to_image] that returns has read the document,
    rendered its first page (at zoom 2 in the Anthropic variant, whose result
    is the encoding of that page, and at zoom 3 in the Groq variant) and
    removed its temporary file: afterwards no file of that name exists, also
    when one existed before the call; no other file, no output, no request
    and no printed line has changed. *)
Theorem X10_pdf_to_image_success {X : Externals}
    (v : Variant) (p enc : str) (w w' : World) :
  pdf_to_image v p w = (Ok enc, w') ->
  w' = set_fs (delete (temp_image_path v)) w
  /\ fs w' !! temp_image_path v = None
  /\ exists doc page,
       fs w !! p = Some doc
       /\ fitz_first_page_png (zoom v) doc = Ok page
       /\ (v = Anthropic -> enc = b64encode page).
Proof.
  intros H. destruct (pdf_to_image_ok v p enc w w' H) as (-> & Hrest).
  split; [reflexivity |]. split; [| exact Hrest].
  cbn [fs set_fs]. apply lookup_delete_eq.
Qed.

(** The document [e.pdf] of the demonstration, beside a file that bears the
    name of the temporary image. *)
Lemma X10_pdf_to_image_success_witness :
  let w := Scenario.world [(lit "e.pdf", Scenario.pdf_e);
                           (lit "temp_invoice.png", Scenario.png_a)] in
  let w' := set_fs (delete (lit "temp_invoice.png")) w in
  pdf_to_image (X := Scenario.demo) Anthropic (lit "e.pdf") w
  = (Ok Scenario.page_e, w')
  /\ (w' = set_fs (delete (temp_image_path Anthropic)) w
      /\ fs w' !! temp_image_path Anthropic = None
      /\ exists doc page,
           fs w !! lit "e.pdf" = Some doc
           /\ fitz_first_page_png (Externals := Scenario.demo)
                (zoom Anthropic) doc = Ok page
           /\ (Anthropic = Anthropic ->
               Scenario.page_e = b64encode (Externals := Scenario.demo) page)).
Proof.
  cbv zeta.
  assert (E : pdf_to_image (X := Scenario.demo) Anthropic (lit "e.pdf")
                (Scenario.world [(lit "e.pdf", Scenario.pdf_e);
                                 (lit "temp_invoice.png", Scenario.png_a)])
              = (Ok Scenario.page_e,
                 set_fs (delete (lit "temp_invoice.png"))
                   (Scenario.world [(lit "e.pdf", Scenario.pdf_e);
                                    (lit "temp_invoice.png", Scenario.png_a)])))
    by now vm_compute.
  split; [exact E |].
  exact (X10_pdf_to_image_success (X := Scenario.demo) Anthropic (lit "e.pdf")
           Scenario.page_e _ _ E).
Defined.

(** ** Responses without a verdict *)

Lemma groq_records_some (vat : str) (l : list ET.Element) (w : World) :
  exists b w', groq_records vat l w = (Ok (Some b), w').
Proof.
  induction l as [| r l IH]; cbn [groq_records]; [now eexists _, _ |].
  repeat match goal with
         | |- context [if ?b then _ else _] => destruct b
         end; try (now eexists _, _); exact IH.
Qed.

(** X11. In the Groq variant [parse_vat_response] has no verdict (returns
    [None]) exactly for the responses that do not parse, hold no status
    element or carry another status code than [0]; for each of these the
    Anthropic variant has no verdict either. *)
Theorem X11_no_verdict_without_success_status
    {U : UnicodeDB} {X : Externals} (xml vat : str) (w : World) :
  (fst (parse_vat_response Groq xml vat w) = Ok None
   <-> success_status xml = false)
  /\ (success_status xml = false ->
      fst (parse_vat_response Anthropic xml vat w) = Ok None).
Proof.
  unfold success_status, parse_vat_response, try_except, bind, lift.
  destruct (fromstring xml) as [root | e]; [| now split].
  destruct (ET.find root (ET.ns (lit "status"))) as [st |]; [| now split].
  cbv zeta. destruct (str_eqb (ET.get st (lit "statusCode") []) (lit "0"));
    [| now split].
  split; [| discriminate]. split; [| discriminate].
  destruct (ET.findall root (ET.ns (lit "statusPlatceDPH"))) as [| r l];
    [discriminate |].
  destruct (groq_records_some vat (r :: l) w) as (b & w' & ->). discriminate.
Qed.

(** ** The clean-up of the backend's text *)

Section Clean.
Context {U : UnicodeDB}.

Lemma part_of_refl (s : str) : part_of s s.
Proof. exists [], []. now rewrite app_nil_r. Qed.

Lemma part_of_trans (r s t : str) : part_of r s -> part_of s t -> part_of r t.
Proof.
  intros (a & b & ->) (c & d & ->). exists (c ++ a), (b ++ d).
  now rewrite <- !app_assoc.
Qed.

Lemma lstrip_split (s : str) :
  exists ws, s = ws ++ lstrip s /\ forallb isspace_char ws = true.
Proof.
  induction s as [| c s (ws & E & H)]; [now exists [] |]. cbn [lstrip].
  destruct (isspace_char c) eqn:Hc; [| now exists []].
  exists (c :: ws). cbn [app forallb]. now rewrite Hc, <- E.
Qed.

Lemma lstrip_starts_clean (s : str) :
  lstrip s = [] \/ starts_clean (lstrip s) = true.
Proof.
  induction s as [| c s IH]; [now left |]. cbn [lstrip].
  destruct (isspace_char c) eqn:Hc; [exact IH |].
  right. unfold starts_clean. cbn. now rewrite Hc.
Qed.

Lemma rstrip_split (s : str) :
  exists ws, s = rstrip s ++ ws /\ forallb isspace_char ws = true.
Proof.
  unfold rstrip. destruct (lstrip_split (rev s)) as (ws & E & H).
  exists (rev ws). split; [| now apply forallb_rev_true].
  now rewrite <- rev_app_distr, <- E, rev_involutive.
Qed.

Lemma rstrip_ends_clean (s : str) :
  rstrip s = [] \/ ends_clean (rstrip s) = true.
Proof.
  unfold rstrip, ends_clean.
  destruct (lstrip_starts_clean (rev s)) as [-> | H]; [now left |].
  right. now rewrite <- head_rev, rev_involutive.
Qed.

Lemma rstrip_keeps_start (s : str) :
  starts_clean s = true -> starts_clean (rstrip s) = true.
Proof.
  intros H. destruct (rstrip_split s) as (ws & E & Hws).
  destruct (rstrip s) as [| c r].
  - cbn [app] in E. subst s. destruct ws as [| c ws]; [discriminate |].
    unfold starts_clean in H. cbn in H, Hws.
    apply andb_true_iff in Hws as [Hc _]. now rewrite Hc in H.
  - rewrite E in H. exact H.
Qed.

Lemma strip_part_of (s : str) : part_of (strip s) s.
Proof.
  unfold strip. destruct (lstrip_split s) as (a & Ea & _).
  destruct (rstrip_split (lstrip s)) as (b & Eb & _).
  exists a, b. now rewrite <- Eb.
Qed.

Lemma strip_trimmed (s : str) : trimmed (strip s).
Proof.
  unfold strip, trimmed.
  destruct (rstrip_ends_clean (lstrip s)) as [-> | He]; [now left |].
  destruct (lstrip_starts_clean s) as [E | Hs].
  - rewrite E. now left.
  - right. split; [now apply rstrip_keeps_start | assumption].
Qed.

Lemma slice_from_part_of (n : nat) (s : str) : part_of (slice_from n s) s.
Proof.
  exists (firstn n s), []. unfold slice_from.
  now rewrite app_nil_r, take_drop.
Qed.

Lemma slice_to_minus_part_of (n : nat) (s : str) :
  part_of (slice_to_minus n s) s.
Proof.
  exists [], (skipn (length s - n) s). unfold slice_to_minus.
  cbn [app]. now rewrite take_drop.
Qed.

(** X12. The clean-up of the backend's answer in [process_invoice] only
    cuts at the two ends: the text handed to [json.loads] is a contiguous
    part of the answer, no longer than it, and has no white space at its
    start or end. *)
Theorem X12_clean_response_text_trims (text : str) :
  part_of (clean_response_text text) text
  /\ trimmed (clean_response_text text)
  /\ (length (clean_response_text text) <= length text)%nat.
Proof.
  assert (H : part_of (clean_response_text text) text).
  { unfold clean_response_text. cbv zeta.
    eapply part_of_trans; [apply strip_part_of |].
    eapply part_of_trans; [| apply strip_part_of].
    eapply part_of_trans.
    - destruct (endswith _ fence);
        [apply slice_to_minus_part_of | apply part_of_refl].
    - destruct (startswith _ fence_json);
        [apply slice_from_part_of | apply part_of_refl]. }
  split; [exact H |]. split; [apply strip_trimmed |].
  destruct H as (a & b & E). rewrite E at 2. rewrite !length_app. lia.
Qed.
End Clean.

(** ** The API key of the Groq variant *)

Section Startup_facts.
Context {U : UnicodeDB}.

Lemma startswith_split (s p : str) :
  startswith s p = true -> s = p ++ skipn (length p) s.
Proof.
  intros H. apply startswith_firstn in H.
  rewrite <- H at 1. now rewrite take_drop.
Qed.

Lemma last_app_nonempty (a b : str) : b <> [] -> last (a ++ b) = last b.
Proof.
  intros Hb. destruct b as [| c b] using rev_ind; [done |].
  now rewrite app_assoc, !last_snoc.
Qed.

(** [strip] of a line that starts with the prefix. *)
Lemma strip_key_line (rest : str) :
  strip (api_key_prefix ++ rest) = api_key_prefix ++ rstrip rest.
Proof.
  unfold strip. rewrite lstrip_clean by reflexivity.
  destruct (rstrip_split rest) as (ws & E & Hws).
  rewrite E at 1. rewrite app_assoc, rstrip_spaces by assumption.
  apply rstrip_clean. unfold ends_clean.
  destruct (rstrip_ends_clean rest) as [-> | H]; [reflexivity |].
  unfold ends_clean in H. rewrite last_app_nonempty; [exact H |].
  intros E'. now rewrite E' in H.
Qed.

(** The loop finds the key of the first line that starts with the prefix,
    and its index never fails. *)
Lemma scan_env_lines_run (lines : list str) :
  scan_env_lines lines
  = Ok (match List.find (fun l => startswith l api_key_prefix) lines with
        | Some l => Some (rstrip (skipn (length api_key_prefix) l))
        | None => None
        end).
Proof.
  induction lines as [| line lines IH]; [reflexivity |].
  cbn [scan_env_lines List.find].
  destruct (startswith line api_key_prefix) eqn:H; [| exact IH].
  apply startswith_split in H. rewrite H at 1. now rewrite strip_key_line.
Qed.

Lemma find_split (f : str -> bool) (lines : list str) (l : str) :
  List.find f lines = Some l ->
  exists before after,
    lines = before ++ l :: after
    /\ Forall (fun x => f x = false) before /\ f l = true.
Proof.
  induction lines as [| x lines IH]; [discriminate |]. cbn [List.find].
  destruct (f x) eqn:Hx.
  - intros [= ->]. exists [], lines. repeat split; [constructor | exact Hx].
  - intros H. destruct (IH H) as (before & after & -> & Hb & Hl).
    exists (x :: before), after. repeat split; [now constructor | exact Hl].
Qed.

Lemma find_first (f : str -> bool) (before after : list str) (l : str) :
  Forall (fun x => f x = false) before -> f l = true ->
  List.find f (before ++ l :: after) = Some l.
Proof.
  intros Hb Hl. induction Hb as [| x before Hx _ IH]; cbn [app List.find].
  - now rewrite Hl.
  - now rewrite Hx.
Qed.

End Startup_facts.

(** X13. For a file [.env] that is read without error (it opens and its
    lines decode) and whose key holds no null character: the first line that
    starts with [GROQ_API_KEY=] decides the key.  What follows the equals
    sign, without the white space at its end, replaces the key of the
    environment, no warning is printed, and the content of the other lines
    does not matter.  The extractor then starts with that key, unless it is
    empty: an empty entry in [.env] hides a key of the environment and makes
    the constructor raise [ValueError]. *)
Theorem X13_env_file_decides_the_key {U : UnicodeDB}
    (before after : list str) (rest : str) (environ : gmap str str) :
  Forall (fun l => startswith l api_key_prefix = false) before ->
  0 ∉ rstrip rest ->
  load_env_file (Some (Ok (before ++ (api_key_prefix ++ rest) :: after)))
    environ
  = Ok (<[api_key_name := rstrip rest]> environ, false)
  /\ init None (<[api_key_name := rstrip rest]> environ)
     = match rstrip rest with
       | [] => Raise ValueError
       | key => Ok key
       end.
Proof.
  intros Hbefore Hnul. split.
  - unfold load_env_file. rewrite scan_env_lines_run.
    rewrite (find_first _ before after (api_key_prefix ++ rest))
      by (assumption || apply startswith_app).
    rewrite drop_app_length. now rewrite bool_decide_eq_false_2.
  - unfold init. rewrite lookup_insert_eq. now destruct (rstrip rest).
Qed.

(** A file [.env] with a comment and the key. *)
Lemma X13_env_file_decides_the_key_witness :
  let line := lit "GROQ_API_KEY=gsk_1 " ++ [10] in
  let environ : gmap str str := {[ api_key_name := lit "old" ]} in
  load_env_file (U := ascii_db) (Some (Ok [lit "# keys" ++ [10]; line; line]))
    environ
  = Ok (<[api_key_name := lit "gsk_1"]> environ, false)
  /\ init None (<[api_key_name := lit "gsk_1"]> environ) = Ok (lit "gsk_1").
Proof.
  cbv zeta.
  apply (X13_env_file_decides_the_key (U := ascii_db)
           [lit "# keys" ++ [10]]
           [lit "GROQ_API_KEY=gsk_1 " ++ [10]]
           (lit "gsk_1 " ++ [10]) {[ api_key_name := lit "old" ]}).
  - repeat constructor.
  - vm_compute. set_solver.
Defined.

(** X14. [load_env_file] fails in two cases only: [.env] cannot be read
    (opening or decoding it raises, and that exception is the one raised),
    or the key of its first line that starts with [GROQ_API_KEY=], the text
    after the equals sign without the white space at its end, holds a null
    character ([ValueError]); the index into the split line never fails.
    When it returns, the warning is right: it is printed only if the
    extractor, built without a key of its own, will raise [ValueError], and
    then the environment is as it was.  Without a warning the environment
    holds a key, and the extractor starts with it unless it is empty. *)
Theorem X14_load_env_file_outcomes {U : UnicodeDB}
    (dotenv : option (Result (list str))) (environ : gmap str str) :
  match load_env_file dotenv environ with
  | Ok (environ', warned) =>
      if warned
      then environ' = environ /\ init None environ' = Raise ValueError
      else exists key,
             environ' !! api_key_name = Some key
             /\ init None environ' = match key with
                                     | [] => Raise ValueError
                                     | _ => Ok key
                                     end
  | Raise e =>
      dotenv = Some (Raise e)
      \/ (e = ValueError
          /\ exists before rest after,
               dotenv = Some (Ok (before ++ (api_key_prefix ++ rest) :: after))
               /\ Forall (fun l => startswith l api_key_prefix = false) before
               /\ 0 ∈ rstrip rest)
  end.
Proof.
  assert (Hcheck :
    let r := (environ, match environ !! api_key_name with
                       | Some (_ :: _) => false
                       | _ => true
                       end) in
    if r.2
    then r.1 = environ /\ init None r.1 = Raise ValueError
    else exists key,
           r.1 !! api_key_name = Some key
           /\ init None r.1 = match key with
                              | [] => Raise ValueError
                              | _ => Ok key
                              end).
  { cbv zeta. cbn [fst snd]. unfold init.
    destruct (environ !! api_key_name) as [[| c k] |] eqn:E;
      cbv beta iota; [now split | | now split].
    now exists (c :: k). }
  unfold load_env_file. destruct dotenv as [[lines | e] |];
    [| now left | exact Hcheck].
  rewrite scan_env_lines_run.
  destruct (List.find _ lines) as [line |] eqn:Hfind; [| exact Hcheck].
  destruct (bool_decide _) eqn:Hnul.
  - right. split; [reflexivity |].
    apply bool_decide_eq_true in Hnul.
    destruct (find_split _ _ _ Hfind) as (before & after & -> & Hbefore & Hline).
    exists before, (skipn (length api_key_prefix) line), after.
    split; [| split; [exact Hbefore | exact Hnul]].
    now rewrite <- (startswith_split _ _ Hline).
  - exists (rstrip (skipn (length api_key_prefix) line)).
    unfold init. rewrite lookup_insert_eq.
    split; [reflexivity |]. now destruct (rstrip _).
Qed.

(** ** A directory without invoices *)

(** X16. In a directory without an entry, file or subdirectory, that ends
    in one of the twelve patterns, [process_all_invoices] prints its two
    lines and does nothing else: nothing is read, written or sent. *)
Theorem X16_nothing_to_process {U : UnicodeDB} {X : Externals}
    (v : Variant) (w : World) :
  (forall name p, is_Some (fs w !! name) \/ name ∈ subdirs ->
                  p ∈ glob_patterns -> endswith name p = false) ->
  process_all_invoices v w
  = (Ok tt, add_stdout MsgSupportedFormats (add_stdout MsgNoFiles w)).
Proof.
  intros Hnone. unfold process_all_invoices. unfold bind at 1.
  rewrite get_supported_files_patterns.
  match goal with |- process_files v ?l w = _ =>
    assert (E : l = []); [| now rewrite E] end.
  apply elem_of_nil_inv. intros name Hname.
  apply elem_of_flat_map_filter in Hname as (Hin & p & Hp & He).
  apply elem_of_entries in Hin. now rewrite (Hnone name p Hin Hp) in He.
Qed.

(** A directory with notes and a document whose extension is in mixed
    case. *)
Lemma X16_nothing_to_process_witness :
  let w := Scenario.world [(lit "notes.txt", Scenario.png_a);
                           (lit "b.Pdf", Scenario.pdf_b)] in
  process_all_invoices (U := ascii_db) (X := Scenario.demo) Groq w
  = (Ok tt, add_stdout MsgSupportedFormats (add_stdout MsgNoFiles w)).
Proof.
  cbv zeta.
  apply (X16_nothing_to_process (U := ascii_db) (X := Scenario.demo)).
  intros name p [[b Hb] | Hdir] Hp; [| now apply elem_of_empty in Hdir].
  apply elem_of_list_to_map_2 in Hb.
  unfold glob_patterns in Hp.
  repeat (apply elem_of_cons in Hb as [[= -> _] | Hb]);
    [| | now apply elem_of_nil in Hb];
    repeat (apply elem_of_cons in Hp as [-> | Hp]; [reflexivity |]);
    now apply elem_of_nil in Hp.
Defined.

(** ** Temporary files and the next scan *)





(** ** The identifier as it is written *)

(** X18. The check looks at the identifier through its normal form only
    (spaces removed, upper case): two identifiers with the same normal form
    get the same request, the same printed lines and the same answer. *)
Theorem X18_check_ignores_spacing_and_case {U : UnicodeDB} {X : Externals}
    (v : Variant) (s1 s2 : str) (w : World) :
  upper (remove_spaces s1) = upper (remove_spaces s2) ->
  check_vat_reliability v (JStr s1) w = check_vat_reliability v (JStr s2) w.
Proof.
  intros H. rewrite !check_vat_reliability_run.
  unfold eligible, request_for, vat_body, normalized. now rewrite H.
Qed.

(** The identifier of the demonstration's payer, spaced and in lower
    case. *)
Lemma X18_check_ignores_spacing_and_case_witness :
  check_vat_reliability (U := ascii_db) (X := Scenario.demo) Groq
    (JStr (lit "cz 1234 5678")) Scenario.empty_world
  = check_vat_reliability (U := ascii_db) (X := Scenario.demo) Groq
      (JStr (lit "CZ12345678")) Scenario.empty_world
  /\ fst (check_vat_reliability (U := ascii_db) (X := Scenario.demo) Groq
            (JStr (lit "cz 1234 5678")) Scenario.empty_world)
     = Ok (Some false).
Proof.
  split; [| now vm_compute].
  apply (X18_check_ignores_spacing_and_case (U := ascii_db)
           (X := Scenario.demo)).
  now vm_compute.
Defined.
